(** * KidBank: the ledger engine, its store and the currency registry

    A shallow embedding of [src/kidbank/currency.py], [src/kidbank/database.py]
    and [src/kidbank/accounts.py], and the properties of the ledger proved
    over it.

    Modelling conventions.
    - A Python [str] is a Rocq [string], one character per code point
      below 256.
    - Monetary amounts (Python [float], SQL [REAL]) are modelled twice.
      Module [F64] has them as the code does: binary64 numbers with the
      machine's addition, subtraction and comparisons, NaN bound as [NULL]
      and minus zero kept as zero by the store.  What is said of the value
      of a balance (insufficient funds, balances that never go negative,
      the balance as the outcome of the history) is proved there.
      Everything else (which rows are written and in which order, the
      identifiers, the listings, the texts) is proved over amounts that
      are exact quantities counted in hundredths of a currency unit, as
      [Z]: 100.00 is [10000].  Binary rounding is outside that part.
    - The SQLite file is a record of its two tables, rows in rowid order,
      with the two AUTOINCREMENT counters.  [created_at] is the reading of
      the clock ([CURRENT_TIMESTAMP], whole seconds) when the row was
      inserted; every mutating call receives that reading as [now].
    - [random.randint] is a list of draws, consumed from the front.
    - A Python call either returns, raises, or is still looping when the
      draws run out: type [outcome]. *)

From Stdlib Require Import ZArith List Ascii String Lia Bool Sorted Permutation.
From Stdlib Require Import Floats.
From stdpp Require Import base option list gmap strings.

Open Scope string_scope.
Open Scope list_scope.
Open Scope Z_scope.

(** ** Python values, exceptions and call outcomes *)

Inductive value :=
  | VInt (n : Z)
  | VStr (s : string)
  | VAmount (a : Z)
  | VTime (t : Z).

Inductive exn :=
  | ValueError (msg : string)
  | IntegrityError (msg : string)
  | OverflowError (msg : string).

Inductive outcome (A : Type) :=
  | Return (a : A)
  | Raise (e : exn)
  | Spinning.

Arguments Return {A} a.
Arguments Raise {A} e.
Arguments Spinning {A}.

(** A Python dict with string keys. *)
Abbreviation dict := (gmap string value).

(** ** Strings: [str.strip] and [str(int)] *)

Module Str.

(** [str.isspace] on one character (code points below 256). *)
Definition isspace (c : ascii) : bool :=
  let n := Z.of_nat (nat_of_ascii c) in
  ((9 <=? n) && (n <=? 13)) || ((28 <=? n) && (n <=? 32))
  || (n =? 133) || (n =? 160).

Fixpoint lstrip (s : string) : string :=
  match s with
  | String c s' => if isspace c then lstrip s' else s
  | EmptyString => EmptyString
  end.

(** Drop trailing whitespace: a character is kept when something
    that is kept follows it, or when it is not whitespace. *)
Fixpoint rstrip (s : string) : string :=
  match s with
  | String c s' =>
      match rstrip s' with
      | EmptyString => if isspace c then EmptyString else String c EmptyString
      | r => String c r
      end
  | EmptyString => EmptyString
  end.

Definition strip (s : string) : string := rstrip (lstrip s).

(** Python truthiness of a [str]. *)
Definition truthy (s : string) : bool :=
  match s with EmptyString => false | _ => true end.

(** The character of one decimal digit. *)
Definition digit (d : Z) : ascii := ascii_of_nat (48 + Z.to_nat d).

(** Decimal digits of a natural number, most significant first; [fuel]
    bounds the number of digits after the first. *)
Fixpoint digits_from (fuel : nat) (n : Z) : list ascii :=
  match fuel with
  | O => [digit (n mod 10)]
  | S k => if n <? 10 then [digit n]
           else digits_from k (n / 10) ++ [digit (n mod 10)]
  end.

Definition digits (n : Z) : list ascii := digits_from (Z.to_nat (Z.log2 n)) n.

(** [str(n)] / [f"{n}"] for an [int]. *)
Definition of_int (n : Z) : string :=
  if n <? 0 then String "-" (string_of_list_ascii (digits (- n)))
  else string_of_list_ascii (digits n).

End Str.

(** ** The format spec [",.2f"] on an amount in hundredths *)

Module Fmt.

(** Thousands separators, on the digits in reverse (units first): a
    comma after every three digits that have more digits after them. *)
Fixpoint group_rev (l : list ascii) : list ascii :=
  match l with
  | a :: b :: c :: ((_ :: _) as r) => a :: b :: c :: ","%char :: group_rev r
  | _ => l
  end.

Definition grouped (n : Z) : list ascii := rev (group_rev (rev (Str.digits n))).

Definition two_digits (n : Z) : list ascii := [Str.digit (n / 10); Str.digit (n mod 10)].

Definition sign (a : Z) : list ascii := if a <? 0 then ["-"%char] else [].

Definition fixed2_chars (a : Z) : list ascii :=
  sign a ++ grouped (Z.abs a / 100) ++ "."%char :: two_digits (Z.abs a mod 100).

(** [f"{amount:,.2f}"]. *)
Definition fixed2 (a : Z) : string := string_of_list_ascii (fixed2_chars a).

End Fmt.

(** ** currency.py *)

Record Currency := mkCurrency {
  code : string;
  name : string;
  symbol : string
}.

(** [Currency.format_amount]. *)
Definition format_amount (c : Currency) (amount : Z) : string :=
  if bool_decide (code c = "USD")
  then symbol c +:+ Fmt.fixed2 amount
  else Fmt.fixed2 amount +:+ " " +:+ symbol c.

Definition CURRENCIES : gmap string Currency :=
  <["USD" := mkCurrency "USD" "US Dollars" "$"]>
  (<["BB" := mkCurrency "BB" "BrainBucks" "BB"]> ∅).

Definition get_currency (c : string) : outcome Currency :=
  match CURRENCIES !! c with
  | None => Raise (ValueError ("Unknown currency: " +:+ c))
  | Some cur => Return cur
  end.

Definition is_valid_currency (c : string) : bool :=
  bool_decide (is_Some (CURRENCIES !! c)).

(** ** database.py: the schema *)

Record account_row := mkAccount {
  a_id : Z;
  a_account_number : string;
  a_first_name : string;
  a_last_name : string;
  a_account_type : string;
  a_currency : string;
  a_balance : Z;
  a_created_at : Z
}.

Record transaction_row := mkTransaction {
  t_id : Z;
  t_account_id : Z;
  t_transaction_type : string;
  t_amount : Z;
  t_balance_after : Z;
  t_description : string;
  t_created_at : Z
}.

Record Database := mkDatabase {
  accounts : list account_row;
  transactions : list transaction_row;
  seq_accounts : Z;
  seq_transactions : Z
}.

(** The store right after [_initialize_schema] on a new file. *)
Definition empty_db : Database := mkDatabase [] [] 0 0.

(** [SELECT ... FROM accounts WHERE account_number = ?], [fetchone]. *)
Definition select_account (db : Database) (number : string) : option account_row :=
  List.find (fun a => bool_decide (a_account_number a = number)) (accounts db).

(** [INSERT INTO accounts ...]: [account_number] is [UNIQUE], the id is
    the AUTOINCREMENT counter plus one.  Gives [lastrowid]. *)
Definition insert_account (db : Database) (number first last ty cur : string)
    (balance now : Z) : outcome Z * Database :=
  match select_account db number with
  | Some _ =>
      (Raise (IntegrityError "UNIQUE constraint failed: accounts.account_number"), db)
  | None =>
      let id := seq_accounts db + 1 in
      (Return id,
       mkDatabase (accounts db ++ [mkAccount id number first last ty cur balance now])
                  (transactions db) id (seq_transactions db))
  end.

(** [INSERT INTO transactions ...]; foreign keys are not enforced by the
    connection, so the insert cannot fail. *)
Definition insert_transaction (db : Database) (account_id : Z) (ty : string)
    (amount balance_after : Z) (description : string) (now : Z) : Database :=
  let id := seq_transactions db + 1 in
  mkDatabase (accounts db)
             (transactions db ++
                [mkTransaction id account_id ty amount balance_after description now])
             (seq_accounts db) id.

Definition set_balance (new_balance : Z) (a : account_row) : account_row :=
  mkAccount (a_id a) (a_account_number a) (a_first_name a) (a_last_name a)
            (a_account_type a) (a_currency a) new_balance (a_created_at a).

(** [UPDATE accounts SET balance = ? WHERE account_number = ?]. *)
Definition update_balance (db : Database) (new_balance : Z) (number : string) : Database :=
  mkDatabase
    (List.map (fun a => if bool_decide (a_account_number a = number)
                        then set_balance new_balance a else a) (accounts db))
    (transactions db) (seq_accounts db) (seq_transactions db).

(** ** accounts.py: [AccountManager] *)

(** The [while True] loop of [generate_account_number]: each turn draws
    [random.randint(100000, 999999)], prints it and returns it unless an
    account already carries that number. *)
Fixpoint generate_account_number (db : Database) (draws : list Z) : outcome string :=
  match draws with
  | [] => Spinning
  | d :: rest =>
      let number := Str.of_int d in
      match select_account db number with
      | None => Return number
      | Some _ => generate_account_number db rest
      end
  end.

(** The dict [create_account] returns. *)
Definition created_dict (account_id : Z) (account_number first_name last_name
    account_type currency : string) (initial_deposit : Z) : dict :=
  <["id" := VInt account_id]>
  (<["account_number" := VStr account_number]>
  (<["first_name" := VStr (Str.strip first_name)]>
  (<["last_name" := VStr (Str.strip last_name)]>
  (<["account_type" := VStr account_type]>
  (<["currency" := VStr currency]>
  (<["balance" := VAmount initial_deposit]> ∅)))))).

(** [create_account] from the first [INSERT] on (lines 70-98), for the
    account number that [generate_account_number] returned. *)
Definition create_account_rows (account_number first_name last_name account_type
    currency : string) (initial_deposit now : Z) (db : Database)
    : outcome dict * Database :=
  match insert_account db account_number (Str.strip first_name) (Str.strip last_name)
                       account_type currency initial_deposit now with
  | (Return account_id, db1) =>
      let db2 :=
        if 0 <? initial_deposit
        then insert_transaction db1 account_id "deposit" initial_deposit
                                initial_deposit "Initial deposit" now
        else db1 in
      (Return (created_dict account_id account_number first_name last_name
                            account_type currency initial_deposit), db2)
  | (Raise e, db1) => (Raise e, db1)
  | (Spinning, db1) => (Spinning, db1)
  end.

Definition create_account (first_name last_name account_type currency : string)
    (initial_deposit : Z) (draws : list Z) (now : Z) (db : Database)
    : outcome dict * Database :=
  if negb (Str.truthy first_name) || negb (Str.truthy (Str.strip first_name))
  then (Raise (ValueError "First name is required"), db)
  else if negb (Str.truthy last_name) || negb (Str.truthy (Str.strip last_name))
  then (Raise (ValueError "Last name is required"), db)
  else if negb (bool_decide (account_type ∈ ["checking"; "savings"]))
  then (Raise (ValueError "Account type must be 'checking' or 'savings'"), db)
  else if negb (is_valid_currency currency)
  then (Raise (ValueError ("Invalid currency: " +:+ currency)), db)
  else if initial_deposit <? 0
  then (Raise (ValueError "Initial deposit cannot be negative"), db)
  else
    match generate_account_number db draws with
    | Return account_number =>
        create_account_rows account_number first_name last_name account_type
                            currency initial_deposit now db
    | Raise e => (Raise e, db)
    | Spinning => (Spinning, db)
    end.

Definition account_dict (a : account_row) : dict :=
  <["id" := VInt (a_id a)]>
  (<["account_number" := VStr (a_account_number a)]>
  (<["first_name" := VStr (a_first_name a)]>
  (<["last_name" := VStr (a_last_name a)]>
  (<["account_type" := VStr (a_account_type a)]>
  (<["currency" := VStr (a_currency a)]>
  (<["balance" := VAmount (a_balance a)]>
  (<["created_at" := VTime (a_created_at a)]> ∅))))))).

Definition get_account (db : Database) (account_number : string) : option dict :=
  account_dict <$> select_account db account_number.

Definition transaction_dict (t : transaction_row) : dict :=
  <["id" := VInt (t_id t)]>
  (<["transaction_type" := VStr (t_transaction_type t)]>
  (<["amount" := VAmount (t_amount t)]>
  (<["balance_after" := VAmount (t_balance_after t)]>
  (<["description" := VStr (t_description t)]>
  (<["created_at" := VTime (t_created_at t)]> ∅))))).

(** [FROM transactions t JOIN accounts a ON t.account_id = a.id
     WHERE a.account_number = ?], in rowid order of [transactions]. *)
Definition joined (db : Database) (account_number : string) : list transaction_row :=
  List.filter
    (fun t => existsb (fun a => bool_decide (t_account_id t = a_id a)
                                && bool_decide (a_account_number a = account_number))
                      (accounts db))
    (transactions db).

(** [ORDER BY t.created_at DESC]: rows whose [created_at] are equal keep
    the order in which the scan met them, which is what SQLite's sorter
    does. *)
Fixpoint insert_desc (t : transaction_row) (l : list transaction_row)
    : list transaction_row :=
  match l with
  | [] => [t]
  | u :: r => if t_created_at t <? t_created_at u
              then u :: insert_desc t r
              else t :: u :: r
  end.

Fixpoint order_by_created_at_desc (l : list transaction_row) : list transaction_row :=
  match l with
  | [] => []
  | t :: r => insert_desc t (order_by_created_at_desc r)
  end.

(** [LIMIT ?], for the 64-bit integer that was bound to the parameter: a
    negative limit is no limit. *)
Definition sql_limit {A} (limit : Z) (l : list A) : list A :=
  if limit <? 0 then l else firstn (Z.to_nat limit) l.

Definition select_transactions (db : Database) (account_number : string) (limit : Z)
    : list transaction_row :=
  sql_limit limit (order_by_created_at_desc (joined db account_number)).

(** The list [get_transactions] builds from the rows of the query. *)
Definition get_transactions (db : Database) (account_number : string) (limit : Z)
    : list dict :=
  List.map transaction_dict (select_transactions db account_number limit).

(** A Python [int] that SQLite can take as an [INTEGER]: 64 bits, signed. *)
Definition int64 (n : Z) : bool := (- 2 ^ 63 <=? n) && (n <? 2 ^ 63).

(** The call of [get_transactions]: [cursor.execute] binds [limit] before
    the query runs, and [sqlite3] raises [OverflowError] for an [int]
    outside 64 bits. *)
Definition get_transactions_outcome (db : Database) (account_number : string)
    (limit : Z) : outcome (list dict) :=
  if int64 limit
  then Return (get_transactions db account_number limit)
  else Raise (OverflowError "Python int too large to convert to SQLite INTEGER").

(** [description or default]. *)
Definition or_default (description default : string) : string :=
  if Str.truthy description then description else default.

Definition movement_dict (account_number ty : string) (amount new_balance : Z) : dict :=
  <["account_number" := VStr account_number]>
  (<["transaction_type" := VStr ty]>
  (<["amount" := VAmount amount]>
  (<["new_balance" := VAmount new_balance]> ∅))).

(** [deposit] and [withdraw] over exact hundredths; [F64.deposit] and
    [F64.withdraw] are the same functions over floats. *)
Definition deposit (account_number : string) (amount : Z) (description : string)
    (now : Z) (db : Database) : outcome dict * Database :=
  if amount <=? 0
  then (Raise (ValueError "Deposit amount must be positive"), db)
  else
    match select_account db account_number with
    | None => (Raise (ValueError ("Account " +:+ account_number +:+ " not found")), db)
    | Some account =>
        let new_balance := a_balance account + amount in
        let db1 := update_balance db new_balance account_number in
        let db2 := insert_transaction db1 (a_id account) "deposit" amount new_balance
                                      (or_default description "Deposit") now in
        (Return (movement_dict account_number "deposit" amount new_balance), db2)
    end.

Definition withdraw (account_number : string) (amount : Z) (description : string)
    (now : Z) (db : Database) : outcome dict * Database :=
  if amount <=? 0
  then (Raise (ValueError "Withdrawal amount must be positive"), db)
  else
    match select_account db account_number with
    | None => (Raise (ValueError ("Account " +:+ account_number +:+ " not found")), db)
    | Some account =>
        if a_balance account <? amount
        then (Raise (ValueError "Insufficient funds"), db)
        else
          let new_balance := a_balance account - amount in
          let db1 := update_balance db new_balance account_number in
          let db2 := insert_transaction db1 (a_id account) "withdrawal" amount
                                        new_balance
                                        (or_default description "Withdrawal") now in
          (Return (movement_dict account_number "withdrawal" amount new_balance), db2)
    end.

(** ** Histories of calls *)

Inductive call :=
  | CreateAccount (first_name last_name account_type currency : string)
                  (initial_deposit : Z) (draws : list Z) (now : Z)
  | Deposit (account_number : string) (amount : Z) (description : string) (now : Z)
  | Withdraw (account_number : string) (amount : Z) (description : string) (now : Z).

Definition run (c : call) (db : Database) : outcome dict * Database :=
  match c with
  | CreateAccount f l ty cur init draws now => create_account f l ty cur init draws now db
  | Deposit n amt d now => deposit n amt d now db
  | Withdraw n amt d now => withdraw n amt d now db
  end.

Definition exec (db : Database) (c : call) : Database := snd (run c db).

Definition exec_all (cs : list call) (db : Database) : Database := fold_left exec cs db.

Inductive reachable : Database -> Prop :=
  | reachable_empty : reachable empty_db
  | reachable_exec db c : reachable db -> reachable (exec db c).

(** ** What an account's history is *)

(** The transactions of an account, oldest first (rowid order). *)
Definition history (db : Database) (a : account_row) : list transaction_row :=
  List.filter (fun t => bool_decide (t_account_id t = a_id a)) (transactions db).

(** Sum of the amounts of the transactions of one kind. *)
Definition total (ty : string) (h : list transaction_row) : Z :=
  fold_right Z.add 0
    (List.map t_amount
       (List.filter (fun t => bool_decide (t_transaction_type t = ty)) h)).

(** [balance_after] of the most recently recorded transaction, zero when
    there is none. *)
Definition latest_balance (h : list transaction_row) : Z :=
  List.last (List.map t_balance_after h) 0.

(** The invariant of the store that the engine maintains. *)
Record consistent (db : Database) : Prop := mkConsistent {
  numbers_unique : List.NoDup (List.map a_account_number (accounts db));
  ids_unique : List.NoDup (List.map a_id (accounts db));
  ids_bounded : forall a, In a (accounts db) -> a_id a <= seq_accounts db;
  owners_bounded : forall t, In t (transactions db) -> t_account_id t <= seq_accounts db;
  conservation : forall a, In a (accounts db) ->
    a_balance a = total "deposit" (history db a) - total "withdrawal" (history db a);
  running : forall a, In a (accounts db) -> a_balance a = latest_balance (history db a);
  non_negative : forall a, In a (accounts db) -> 0 <= a_balance a
}.

(** ** What the calls are expected to write *)

(** The rows written by a successful creation. *)
Definition created_rows (db : Database) (account_number first_name last_name
    account_type currency : string) (initial_deposit now : Z) : Database :=
  let id := seq_accounts db + 1 in
  mkDatabase
    (accounts db ++ [mkAccount id account_number (Str.strip first_name)
                               (Str.strip last_name) account_type currency
                               initial_deposit now])
    (if 0 <? initial_deposit
     then transactions db ++
            [mkTransaction (seq_transactions db + 1) id "deposit" initial_deposit
                           initial_deposit "Initial deposit" now]
     else transactions db)
    id
    (if 0 <? initial_deposit then seq_transactions db + 1 else seq_transactions db).

(** The five checks that open [create_account]. *)
Definition valid_arguments (first_name last_name account_type currency : string)
    (initial_deposit : Z) : Prop :=
  Str.strip first_name <> "" /\ Str.strip last_name <> "" /\
  (account_type = "checking" \/ account_type = "savings") /\
  is_Some (CURRENCIES !! currency) /\ 0 <= initial_deposit.

#[global] Instance valid_arguments_dec first last ty cur init :
  Decision (valid_arguments first last ty cur init).
Proof. unfold valid_arguments. apply _. Defined.

(** ** A sample history *)

Definition sample_calls : list call :=
  [CreateAccount "Alice" "Lee" "checking" "USD" 0 [123456] 1000;
   Deposit "123456" 10000 "" 1001;
   Withdraw "123456" 3000 "" 1002].

Definition sample_db : Database := exec_all sample_calls empty_db.

Definition sample_account : account_row :=
  mkAccount 1 "123456" "Alice" "Lee" "checking" "USD" 7000 1000.

(** The sample history with the deposit and the withdrawal made within
    one second of the clock. *)
Definition same_second_calls : list call :=
  [CreateAccount "Alice" "Lee" "checking" "USD" 0 [123456] 1000;
   Deposit "123456" 10000 "" 1001;
   Withdraw "123456" 3000 "" 1001].

(** Type, amount and [balance_after] of a listed transaction. *)
Definition summary (t : transaction_row) : string * Z * Z :=
  (t_transaction_type t, t_amount t, t_balance_after t).

(** ** What a rendered amount looks like *)

Definition is_digit (c : ascii) : bool :=
  let n := nat_of_ascii c in (48 <=? n)%nat && (n <=? 57)%nat.

Definition digit_value (c : ascii) : Z := Z.of_nat (nat_of_ascii c) - 48.

(** The number a string of decimal digits denotes. *)
Definition decimal (l : list ascii) : Z :=
  fold_left (fun v c => 10 * v + digit_value c) l 0.


(** ** What a call touches and what it keeps *)

(** The account number a call moves money on. *)
Definition target (c : call) : option string :=
  match c with
  | CreateAccount _ _ _ _ _ _ _ => None
  | Deposit n _ _ _ => Some n
  | Withdraw n _ _ _ => Some n
  end.

(** The columns of an account row that no statement of the engine
    updates: everything but the balance. *)
Definition account_identity (a : account_row)
    : Z * string * string * string * string * string * Z :=
  (a_id a, a_account_number a, a_first_name a, a_last_name a, a_account_type a,
   a_currency a, a_created_at a).

(** A store with two accounts: the sample history, then a creation whose
    first draw collides with the existing number. *)
Definition two_accounts_calls : list call :=
  sample_calls ++ [CreateAccount " Bo " "Ray" "savings" "BB" 2500 [123456; 654321] 1003].

Definition two_accounts_db : Database := exec_all two_accounts_calls empty_db.

(** ** The shape of the rows *)

(** The amount of a transaction with its sign: deposits add, withdrawals
    take away. *)
Definition signed_amount (t : transaction_row) : Z :=
  if bool_decide (t_transaction_type t = "deposit") then t_amount t else - t_amount t.

(** Each [balance_after] is the one before it (or [previous] for the
    first) moved by the signed amount. *)
Fixpoint chained (previous : Z) (h : list transaction_row) : Prop :=
  match h with
  | [] => True
  | t :: r => t_balance_after t = previous + signed_amount t /\
              chained (t_balance_after t) r
  end.

(** The ids 1, 2, ..., n. *)
Definition ids_upto (n : nat) : list Z := List.map Z.of_nat (List.seq 1 n).

Record well_formed (db : Database) : Prop := mkWellFormed {
  account_ids : List.map a_id (accounts db) = ids_upto (length (accounts db));
  account_counter : seq_accounts db = Z.of_nat (length (accounts db));
  transaction_ids :
    List.map t_id (transactions db) = ids_upto (length (transactions db));
  transaction_counter : seq_transactions db = Z.of_nat (length (transactions db));
  transactions_shaped : forall t, In t (transactions db) ->
    0 < t_amount t /\
    (t_transaction_type t = "deposit" \/ t_transaction_type t = "withdrawal") /\
    0 <= t_balance_after t /\
    t_description t <> "" /\
    In (t_account_id t) (List.map a_id (accounts db));
  accounts_shaped : forall a, In a (accounts db) ->
    Str.strip (a_first_name a) = a_first_name a /\ a_first_name a <> "" /\
    Str.strip (a_last_name a) = a_last_name a /\ a_last_name a <> "" /\
    (a_account_type a = "checking" \/ a_account_type a = "savings") /\
    is_Some (CURRENCIES !! a_currency a);
  histories_chained : forall a, In a (accounts db) -> chained 0 (history db a)
}.

(** The draws of a call are results of [random.randint(100000, 999999)]. *)
Definition draws_in_range (c : call) : Prop :=
  match c with
  | CreateAccount _ _ _ _ _ draws _ => Forall (fun d => 100000 <= d <= 999999) draws
  | _ => True
  end.

(** A string of exactly six decimal digits that reads as a number from
    100000 to 999999. *)
Definition six_digits (s : string) : Prop :=
  String.length s = 6%nat /\
  forallb is_digit (list_ascii_of_string s) = true /\
  100000 <= decimal (list_ascii_of_string s) <= 999999.

(** ** [ORDER BY] in general, and [list_accounts] *)

(** SQLite's sorter on rows met in scan order: a row goes behind the
    rows it sorts strictly later than ([later x y]: [x] comes after [y])
    and in front of the first row it does not, so rows with equal keys
    keep their scan order. *)
Fixpoint insert_by {A} (later : A -> A -> bool) (x : A) (l : list A) : list A :=
  match l with
  | [] => [x]
  | y :: r => if later x y then y :: insert_by later x r else x :: y :: r
  end.

Fixpoint order_by {A} (later : A -> A -> bool) (l : list A) : list A :=
  match l with
  | [] => []
  | x :: r => insert_by later x (order_by later r)
  end.

(** [ORDER BY last_name, first_name] (BINARY collation, ascending):
    [a] comes after [b] when [b]'s last name is smaller, or the last
    names are equal and [b]'s first name is smaller. *)
Definition name_later (a b : account_row) : bool :=
  match String.compare (a_last_name b) (a_last_name a) with
  | Lt => true
  | Gt => false
  | Eq => String.ltb (a_first_name b) (a_first_name a)
  end.

Definition list_accounts (db : Database) : list dict :=
  List.map account_dict (order_by name_later (accounts db)).

(** [a] is not after [b] in the order of (last name, first name). *)
Definition name_le (a b : account_row) : Prop :=
  String.ltb (a_last_name a) (a_last_name b) = true \/
  (a_last_name a = a_last_name b /\
   String.leb (a_first_name a) (a_first_name b) = true).

(** ** The registry as it is written, and [get_available_currencies] *)

(** The items of the [CURRENCIES] dict literal, in the order written. *)
Definition CURRENCY_ITEMS : list (string * Currency) :=
  [("USD", mkCurrency "USD" "US Dollars" "$");
   ("BB", mkCurrency "BB" "BrainBucks" "BB")].

(** [list(CURRENCIES.values())]: the values in insertion order. *)
Definition get_available_currencies : list Currency := List.map snd CURRENCY_ITEMS.

(** ** printer.py: the two layout helpers *)

Module Printer.

Definition WIDTH : Z := 80.

(** [s * n]: [n] copies of [s], none when [n] is zero or less. *)
Definition times (s : string) (n : Z) : string :=
  String.concat "" (repeat s (Z.to_nat n)).

(** [text.center(width)], padded with spaces. *)
Definition _center (text : string) (width : Z) : string :=
  let len := Z.of_nat (String.length text) in
  if width <=? len then text
  else
    let marg := width - len in
    let left := marg / 2 + Z.land (Z.land marg width) 1 in
    times " " left +:+ text +:+ times " " (marg - left).

Definition _line (char : string) (width : Z) : string := times char width.

End Printer.

(** Every character of [s] is whitespace. *)
Fixpoint all_space (s : string) : bool :=
  match s with
  | EmptyString => true
  | String c r => Str.isspace c && all_space r
  end.

(** ** The engine over binary64 amounts *)

(** The same three calls with the amounts as the code has them: Python
    [float]s, that is IEEE 754 binary64 numbers, added, subtracted and
    compared with the machine's operations (round to nearest, ties to
    even), and kept in [REAL NOT NULL] columns.  Everything that does not
    touch an amount is as above. *)
Module F64.

(** What a [REAL] column keeps of a float: the float itself, except that
    minus zero is read back as zero. *)
Definition stored (x : float) : float := if is_zero x then 0%float else x.

(** Binding a float to a statement parameter: NaN is bound as [NULL]. *)
Definition bind_real (x : float) : option float :=
  if is_nan x then None else Some (stored x).

Inductive value :=
  | VInt (n : Z)
  | VStr (s : string)
  | VFloat (x : float).

Abbreviation dict := (gmap string value).

Record account_row := mkAccount {
  a_id : Z;
  a_account_number : string;
  a_first_name : string;
  a_last_name : string;
  a_account_type : string;
  a_currency : string;
  a_balance : float;
  a_created_at : Z
}.

Record transaction_row := mkTransaction {
  t_id : Z;
  t_account_id : Z;
  t_transaction_type : string;
  t_amount : float;
  t_balance_after : float;
  t_description : string;
  t_created_at : Z
}.

Record Database := mkDatabase {
  accounts : list account_row;
  transactions : list transaction_row;
  seq_accounts : Z;
  seq_transactions : Z
}.

Definition empty_db : Database := mkDatabase [] [] 0 0.

Definition select_account (db : Database) (number : string) : option account_row :=
  List.find (fun a => bool_decide (a_account_number a = number)) (accounts db).

(** [INSERT INTO accounts ...]: [balance] is [NOT NULL], which is checked
    before [account_number] is looked up in its [UNIQUE] index.  A failed
    insert leaves the table and the AUTOINCREMENT counter as they were. *)
Definition insert_account (db : Database) (number first last ty cur : string)
    (balance : float) (now : Z) : outcome Z * Database :=
  match bind_real balance with
  | None => (Raise (IntegrityError "NOT NULL constraint failed: accounts.balance"), db)
  | Some b =>
      match select_account db number with
      | Some _ =>
          (Raise (IntegrityError "UNIQUE constraint failed: accounts.account_number"), db)
      | None =>
          let id := seq_accounts db + 1 in
          (Return id,
           mkDatabase (accounts db ++ [mkAccount id number first last ty cur b now])
                      (transactions db) id (seq_transactions db))
      end
  end.

(** [INSERT INTO transactions ...]: [amount] and [balance_after] are
    [NOT NULL]; foreign keys are not enforced by the connection. *)
Definition insert_transaction (db : Database) (account_id : Z) (ty : string)
    (amount balance_after : float) (description : string) (now : Z)
    : outcome unit * Database :=
  match bind_real amount with
  | None => (Raise (IntegrityError "NOT NULL constraint failed: transactions.amount"), db)
  | Some amt =>
      match bind_real balance_after with
      | None =>
          (Raise (IntegrityError "NOT NULL constraint failed: transactions.balance_after"),
           db)
      | Some bal =>
          let id := seq_transactions db + 1 in
          (Return tt,
           mkDatabase (accounts db)
                      (transactions db ++
                         [mkTransaction id account_id ty amt bal description now])
                      (seq_accounts db) id)
      end
  end.

Definition set_balance (new_balance : float) (a : account_row) : account_row :=
  mkAccount (a_id a) (a_account_number a) (a_first_name a) (a_last_name a)
            (a_account_type a) (a_currency a) new_balance (a_created_at a).

(** [UPDATE accounts SET balance = ? WHERE account_number = ?]: a [NULL]
    balance fails on the first row the statement would change. *)
Definition update_balance (db : Database) (new_balance : float) (number : string)
    : outcome unit * Database :=
  match bind_real new_balance with
  | None =>
      match select_account db number with
      | Some _ =>
          (Raise (IntegrityError "NOT NULL constraint failed: accounts.balance"), db)
      | None => (Return tt, db)
      end
  | Some b =>
      (Return tt,
       mkDatabase
         (List.map (fun a => if bool_decide (a_account_number a = number)
                             then set_balance b a else a) (accounts db))
         (transactions db) (seq_accounts db) (seq_transactions db))
  end.

Fixpoint generate_account_number (db : Database) (draws : list Z) : outcome string :=
  match draws with
  | [] => Spinning
  | d :: rest =>
      let number := Str.of_int d in
      match select_account db number with
      | None => Return number
      | Some _ => generate_account_number db rest
      end
  end.

(** The dict [create_account] returns: [balance] is the argument itself. *)
Definition created_dict (account_id : Z) (account_number first_name last_name
    account_type currency : string) (initial_deposit : float) : dict :=
  <["id" := VInt account_id]>
  (<["account_number" := VStr account_number]>
  (<["first_name" := VStr (Str.strip first_name)]>
  (<["last_name" := VStr (Str.strip last_name)]>
  (<["account_type" := VStr account_type]>
  (<["currency" := VStr currency]>
  (<["balance" := VFloat initial_deposit]> ∅)))))).

(** An exception leaves the function before [conn.commit()]: the store
    given back is the one the connection sees at that point. *)
Definition create_account (first_name last_name account_type currency : string)
    (initial_deposit : float) (draws : list Z) (now : Z) (db : Database)
    : outcome dict * Database :=
  if negb (Str.truthy first_name) || negb (Str.truthy (Str.strip first_name))
  then (Raise (ValueError "First name is required"), db)
  else if negb (Str.truthy last_name) || negb (Str.truthy (Str.strip last_name))
  then (Raise (ValueError "Last name is required"), db)
  else if negb (bool_decide (account_type ∈ ["checking"; "savings"]))
  then (Raise (ValueError "Account type must be 'checking' or 'savings'"), db)
  else if negb (is_valid_currency currency)
  then (Raise (ValueError ("Invalid currency: " +:+ currency)), db)
  else if (initial_deposit <? 0)%float
  then (Raise (ValueError "Initial deposit cannot be negative"), db)
  else
    match generate_account_number db draws with
    | Return account_number =>
        match insert_account db account_number (Str.strip first_name)
                             (Str.strip last_name) account_type currency
                             initial_deposit now with
        | (Return account_id, db1) =>
            let result := created_dict account_id account_number first_name last_name
                                       account_type currency initial_deposit in
            if (0 <? initial_deposit)%float
            then
              match insert_transaction db1 account_id "deposit" initial_deposit
                                       initial_deposit "Initial deposit" now with
              | (Return _, db2) => (Return result, db2)
              | (Raise e, db2) => (Raise e, db2)
              | (Spinning, db2) => (Spinning, db2)
              end
            else (Return result, db1)
        | (Raise e, db1) => (Raise e, db1)
        | (Spinning, db1) => (Spinning, db1)
        end
    | Raise e => (Raise e, db)
    | Spinning => (Spinning, db)
    end.

Definition movement_dict (account_number ty : string) (amount new_balance : float)
    : dict :=
  <["account_number" := VStr account_number]>
  (<["transaction_type" := VStr ty]>
  (<["amount" := VFloat amount]>
  (<["new_balance" := VFloat new_balance]> ∅))).

(** The [UPDATE] and the [INSERT] that [deposit] and [withdraw] share. *)
Definition record_movement (db : Database) (account : account_row)
    (account_number ty : string) (amount new_balance : float) (description : string)
    (now : Z) : outcome dict * Database :=
  match update_balance db new_balance account_number with
  | (Return _, db1) =>
      match insert_transaction db1 (a_id account) ty amount new_balance
                               description now with
      | (Return _, db2) =>
          (Return (movement_dict account_number ty amount new_balance), db2)
      | (Raise e, db2) => (Raise e, db2)
      | (Spinning, db2) => (Spinning, db2)
      end
  | (Raise e, db1) => (Raise e, db1)
  | (Spinning, db1) => (Spinning, db1)
  end.

Definition deposit (account_number : string) (amount : float) (description : string)
    (now : Z) (db : Database) : outcome dict * Database :=
  if (amount <=? 0)%float
  then (Raise (ValueError "Deposit amount must be positive"), db)
  else
    match select_account db account_number with
    | None => (Raise (ValueError ("Account " +:+ account_number +:+ " not found")), db)
    | Some account =>
        let new_balance := (a_balance account + amount)%float in
        record_movement db account account_number "deposit" amount new_balance
                        (or_default description "Deposit") now
    end.

Definition withdraw (account_number : string) (amount : float) (description : string)
    (now : Z) (db : Database) : outcome dict * Database :=
  if (amount <=? 0)%float
  then (Raise (ValueError "Withdrawal amount must be positive"), db)
  else
    match select_account db account_number with
    | None => (Raise (ValueError ("Account " +:+ account_number +:+ " not found")), db)
    | Some account =>
        if (a_balance account <? amount)%float
        then (Raise (ValueError "Insufficient funds"), db)
        else
          let new_balance := (a_balance account - amount)%float in
          record_movement db account account_number "withdrawal" amount new_balance
                          (or_default description "Withdrawal") now
    end.

Inductive call :=
  | CreateAccount (first_name last_name account_type currency : string)
                  (initial_deposit : float) (draws : list Z) (now : Z)
  | Deposit (account_number : string) (amount : float) (description : string) (now : Z)
  | Withdraw (account_number : string) (amount : float) (description : string)
             (now : Z).

Definition run (c : call) (db : Database) : outcome dict * Database :=
  match c with
  | CreateAccount f l ty cur init draws now => create_account f l ty cur init draws now db
  | Deposit n amt d now => deposit n amt d now db
  | Withdraw n amt d now => withdraw n amt d now db
  end.

Definition exec (db : Database) (c : call) : Database := snd (run c db).

Definition exec_all (cs : list call) (db : Database) : Database := fold_left exec cs db.

(** The transactions of an account, oldest first (rowid order). *)
Definition history (db : Database) (a : account_row) : list transaction_row :=
  List.filter (fun t => bool_decide (t_account_id t = a_id a)) (transactions db).

(** Python's [sum] over the amounts of the transactions of one kind:
    a running float sum from 0, in rowid order. *)
Definition total (ty : string) (h : list transaction_row) : float :=
  fold_left (fun s x => (s + x)%float)
    (List.map t_amount
       (List.filter (fun t => bool_decide (t_transaction_type t = ty)) h))
    0%float.

(** The value of a finite float as an exact quantity, counted in units of
    [2 ^ -1074] (the spacing of the smallest binary64 numbers). *)
Definition exact (x : float) : Z :=
  match Prim2SF x with
  | S754_finite s m e => cond_Zopp s (Zpos m) * 2 ^ (e + 1074)
  | _ => 0
  end.

(** The same total over exact quantities, without rounding. *)
Definition exact_total (ty : string) (h : list transaction_row) : Z :=
  fold_right Z.add 0
    (List.map (fun t => exact (t_amount t))
       (List.filter (fun t => bool_decide (t_transaction_type t = ty)) h)).

(** One transaction applied to a balance, as the engine computes it. *)
Definition apply (balance : float) (t : transaction_row) : float :=
  if bool_decide (t_transaction_type t = "withdrawal")
  then (balance - t_amount t)%float
  else (balance + t_amount t)%float.

(** A history replayed from a zero balance, oldest transaction first. *)
Definition replay (h : list transaction_row) : float := fold_left apply h 0%float.

(** Zero, a positive number or plus infinity: neither negative (minus
    zero included) nor NaN. *)
Definition not_negative (x : spec_float) : Prop :=
  match x with
  | S754_zero s | S754_infinity s | S754_finite s _ _ => s = false
  | S754_nan => False
  end.

(** Positive, finite or not. *)
Definition above_zero (x : spec_float) : Prop :=
  match x with
  | S754_infinity false | S754_finite false _ _ => True
  | _ => False
  end.

(** What a successful creation writes, for the balance [b] that the
    column keeps of the initial deposit. *)
Definition created (db : Database) (account_number first_name last_name account_type
    currency : string) (b : float) (now : Z) : Database :=
  let id := seq_accounts db + 1 in
  let account :=
    mkAccount id account_number (Str.strip first_name) (Str.strip last_name)
              account_type currency b now in
  if (0 <? b)%float
  then mkDatabase (accounts db ++ [account])
                  (transactions db ++
                     [mkTransaction (seq_transactions db + 1) id "deposit" b b
                                    "Initial deposit" now])
                  id (seq_transactions db + 1)
  else mkDatabase (accounts db ++ [account]) (transactions db) id (seq_transactions db).

(** What a successful deposit or withdrawal writes. *)
Definition moved (db : Database) (account_id : Z) (account_number ty : string)
    (amount new_balance : float) (description : string) (now : Z) : Database :=
  mkDatabase
    (List.map (fun a => if bool_decide (a_account_number a = account_number)
                        then set_balance new_balance a else a) (accounts db))
    (transactions db ++
       [mkTransaction (seq_transactions db + 1) account_id ty amount new_balance
                      description now])
    (seq_accounts db) (seq_transactions db + 1).

(** The invariant of the store that the engine maintains. *)
Record consistent (db : Database) : Prop := mkConsistent {
  numbers_unique : List.NoDup (List.map a_account_number (accounts db));
  ids_unique : List.NoDup (List.map a_id (accounts db));
  ids_bounded : forall a, In a (accounts db) -> a_id a <= seq_accounts db;
  owners_bounded : forall t, In t (transactions db) -> t_account_id t <= seq_accounts db;
  replayed : forall a, In a (accounts db) -> a_balance a = replay (history db a);
  non_negative : forall a, In a (accounts db) -> not_negative (Prim2SF (a_balance a))
}.

(** The floats that Python reads from the decimal literals 0.1, 0.2,
    0.3, 0.7 and 0.9. *)
Definition tenths (n : Z) : float :=
  match n with
  | 1 => 0x1.999999999999ap-4
  | 2 => 0x1.999999999999ap-3
  | 3 => 0x1.3333333333333p-2
  | 7 => 0x1.6666666666666p-1
  | 9 => 0x1.ccccccccccccdp-1
  | _ => 0
  end%float.

(** A history in which the running balance is rounded: 0.3 is paid in,
    0.1 is taken out, 0.7 is paid in. *)
Definition rounding_calls : list call :=
  [CreateAccount "Ada" "Lovelace" "checking" "USD" 0%float [123456] 1000;
   Deposit "123456" (tenths 3) "" 1001;
   Withdraw "123456" (tenths 1) "" 1002;
   Deposit "123456" (tenths 7) "" 1003].

Definition rounding_db : Database := exec_all rounding_calls empty_db.

Definition rounding_account : account_row :=
  mkAccount 1 "123456" "Ada" "Lovelace" "checking" "USD"
            0x1.cccccccccccccp-1%float 1000.

(** An account opened with 0.1, then 0.2 paid in and taken out again. *)
Definition round_trip_calls : list call :=
  [CreateAccount "Ada" "Lovelace" "checking" "USD" (tenths 1) [123456] 1000;
   Deposit "123456" (tenths 2) "" 1001;
   Withdraw "123456" (tenths 2) "" 1002].

(** *** The format spec [",.2f"] on a float *)

(** The absolute value of a finite float times 100, rounded to the
    nearest integer, ties to even: Python rounds the exact value of the
    float, not its shortest decimal form. *)
Definition hundredths (x : float) : Z :=
  match Prim2SF x with
  | S754_finite _ m e =>
      let n := Zpos m * 100 in
      if 0 <=? e then n * 2 ^ e
      else
        let d := 2 ^ (- e) in
        let q := n / d in
        match 2 * (n mod d) ?= d with
        | Lt => q
        | Gt => q + 1
        | Eq => if Z.even q then q else q + 1
        end
  | _ => 0
  end.

(** [f"{x:,.2f}"]: the sign as the float carries it (minus zero
    included), the integer part in groups of three, two decimals. *)
Definition fixed2 (x : float) : string :=
  match Prim2SF x with
  | S754_nan => "nan"
  | S754_infinity s => if s then "-inf" else "inf"
  | S754_zero s | S754_finite s _ _ =>
      string_of_list_ascii
        ((if s then ["-"%char] else []) ++
         Fmt.grouped (hundredths x / 100) ++
         "."%char :: Fmt.two_digits (hundredths x mod 100))
  end.

(** [Currency.format_amount]. *)
Definition format_amount (c : Currency) (amount : float) : string :=
  if bool_decide (code c = "USD")
  then symbol c +:+ fixed2 amount
  else fixed2 amount +:+ " " +:+ symbol c.

End F64.

(** * Properties *)

(** ** The store *)

Section Store.

Variable db : Database.

Lemma select_account_Some number a :
  select_account db number = Some a ->
  In a (accounts db) /\ a_account_number a = number.
Proof.
  unfold select_account. intros H. apply find_some in H.
  destruct H as [Hin Hb]. split; [exact Hin|].
  now apply bool_decide_eq_true in Hb.
Qed.

Lemma select_account_None number a :
  select_account db number = None -> In a (accounts db) ->
  a_account_number a <> number.
Proof.
  unfold select_account. intros H Hin.
  pose proof (find_none _ _ H a Hin) as Hb. simpl in Hb.
  now apply bool_decide_eq_false in Hb.
Qed.

Lemma select_account_In a :
  In a (accounts db) -> exists b, select_account db (a_account_number a) = Some b.
Proof.
  intros Hin. destruct (select_account db (a_account_number a)) eqn:E; [eauto|].
  exfalso. now apply (select_account_None _ a E).
Qed.

End Store.

Lemma map_key_inj {A B} (f : A -> B) (l : list A) x y :
  List.NoDup (List.map f l) -> In x l -> In y l -> f x = f y -> x = y.
Proof.
  induction l as [|z l IH]; simpl; [tauto|].
  intros Hnd Hx Hy Hf. apply List.NoDup_cons_iff in Hnd as [Hz Hnd'].
  destruct Hx as [->|Hx], Hy as [->|Hy]; auto.
  - exfalso. apply Hz. rewrite Hf. now apply in_map.
  - exfalso. apply Hz. rewrite <- Hf. now apply in_map.
Qed.

Lemma select_account_unique db number a :
  List.NoDup (List.map a_account_number (accounts db)) ->
  In a (accounts db) -> a_account_number a = number ->
  select_account db number = Some a.
Proof.
  intros Hnd Hin Hnum. subst number.
  destruct (select_account_In db a Hin) as [b Hb]. rewrite Hb. f_equal.
  apply select_account_Some in Hb as [Hbin Hbn].
  now apply (map_key_inj a_account_number (accounts db)).
Qed.

(** ** Histories under the three writes *)

Lemma total_snoc ty h t :
  total ty (h ++ [t]) =
  total ty h + (if bool_decide (t_transaction_type t = ty) then t_amount t else 0).
Proof.
  unfold total. rewrite List.filter_app, List.map_app, List.fold_right_app. simpl.
  generalize (List.map t_amount
    (List.filter (fun t0 => bool_decide (t_transaction_type t0 = ty)) h)).
  intros l. destruct (bool_decide (t_transaction_type t = ty)); simpl.
  - induction l as [|x l IH]; simpl; lia.
  - lia.
Qed.

Lemma latest_balance_snoc h t : latest_balance (h ++ [t]) = t_balance_after t.
Proof. unfold latest_balance. rewrite List.map_app. simpl. apply List.last_last. Qed.

Lemma history_new_account db a :
  (forall t, In t (transactions db) -> t_account_id t <= seq_accounts db) ->
  seq_accounts db < a_id a -> history db a = [].
Proof.
  intros Hown Hid. unfold history.
  induction (transactions db) as [|t l IH]; simpl; [reflexivity|].
  rewrite bool_decide_eq_false_2.
  - apply IH. intros u Hu. apply Hown. now right.
  - specialize (Hown t (or_introl eq_refl)). lia.
Qed.

Lemma update_balance_numbers db b number :
  List.map a_account_number (accounts (update_balance db b number)) =
  List.map a_account_number (accounts db).
Proof.
  simpl. rewrite List.map_map. apply List.map_ext. intros a.
  now destruct (bool_decide (a_account_number a = number)).
Qed.

Lemma update_balance_ids db b number :
  List.map a_id (accounts (update_balance db b number)) = List.map a_id (accounts db).
Proof.
  simpl. rewrite List.map_map. apply List.map_ext. intros a.
  now destruct (bool_decide (a_account_number a = number)).
Qed.

Lemma update_balance_In db b number a' :
  In a' (accounts (update_balance db b number)) ->
  exists a, In a (accounts db) /\
    ((a_account_number a = number /\ a' = set_balance b a) \/
     (a_account_number a <> number /\ a' = a)).
Proof.
  simpl. rewrite List.in_map_iff. intros [a [Ha Hin]]. exists a. split; [exact Hin|].
  destruct (bool_decide (a_account_number a = number)) eqn:E.
  - apply bool_decide_eq_true in E. left. now split.
  - apply bool_decide_eq_false in E. right. now split.
Qed.

(** The two writes of a deposit or withdrawal keep the store consistent
    when the new balance is the old one moved by the amount. *)
Lemma movement_consistent db number account ty amount new_balance description now :
  consistent db ->
  select_account db number = Some account ->
  (ty = "deposit" /\ new_balance = a_balance account + amount \/
   ty = "withdrawal" /\ new_balance = a_balance account - amount) ->
  0 <= new_balance ->
  consistent (insert_transaction (update_balance db new_balance number)
                (a_id account) ty amount new_balance description now).
Proof.
  intros C Hsel Hty Hnn.
  apply select_account_Some in Hsel as Hacc. destruct Hacc as [Hin Hnum].
  assert (Hcase : forall a', In a' (accounts (update_balance db new_balance number)) ->
            (a_id a' = a_id account /\ a_balance a' = new_balance) \/
            (a_id a' <> a_id account /\ In a' (accounts db))).
  { intros a' Ha'. apply update_balance_In in Ha' as [a [Ha [[Hn ->]|[Hn ->]]]].
    - left. assert (a = account) as ->; [|now split].
      apply (map_key_inj a_account_number (accounts db)); auto using numbers_unique.
      congruence.
    - right. split; [|exact Ha]. intros Hid. apply Hn. rewrite <- Hnum. f_equal.
      apply (map_key_inj a_id (accounts db)); auto using ids_unique. }
  assert (Hhist : forall a',
            history (insert_transaction (update_balance db new_balance number)
                       (a_id account) ty amount new_balance description now) a' =
            history db a' ++
              (if bool_decide (a_id account = a_id a')
               then [mkTransaction (seq_transactions db + 1) (a_id account) ty amount
                                   new_balance description now]
               else [])).
  { intros a'. unfold insert_transaction, history. simpl. now rewrite List.filter_app. }
  constructor.
  - simpl. pose proof (update_balance_numbers db new_balance number) as E. simpl in E.
    rewrite E. apply (numbers_unique _ C).
  - simpl. pose proof (update_balance_ids db new_balance number) as E. simpl in E.
    rewrite E. apply (ids_unique _ C).
  - intros a' Ha'. simpl in *. apply Hcase in Ha' as [[Hid _]|[_ Ha']].
    + rewrite Hid. now apply (ids_bounded _ C).
    + now apply (ids_bounded _ C).
  - intros t Ht. simpl in *. apply List.in_app_iff in Ht as [Ht|[<-|[]]].
    + now apply (owners_bounded _ C).
    + simpl. now apply (ids_bounded _ C).
  - intros a' Ha'. rewrite Hhist. simpl in Ha'. apply Hcase in Ha' as [[Hid Hb]|[Hid Ha']].
    + rewrite bool_decide_eq_true_2 by congruence. rewrite !total_snoc. simpl.
      assert (Hh : history db a' = history db account) by (unfold history; now rewrite Hid).
      rewrite Hh, Hb. pose proof (conservation _ C account Hin) as Hc.
      destruct Hty as [[-> ->]|[-> ->]];
        rewrite ?bool_decide_eq_true_2 by reflexivity;
        rewrite ?bool_decide_eq_false_2 by discriminate; simpl; lia.
    + rewrite bool_decide_eq_false_2 by congruence. rewrite app_nil_r.
      now apply (conservation _ C).
  - intros a' Ha'. rewrite Hhist. simpl in Ha'. apply Hcase in Ha' as [[Hid Hb]|[Hid Ha']].
    + rewrite bool_decide_eq_true_2 by congruence. now rewrite latest_balance_snoc.
    + rewrite bool_decide_eq_false_2 by congruence. rewrite app_nil_r.
      now apply (running _ C).
  - intros a' Ha'. simpl in Ha'. apply Hcase in Ha' as [[Hid Hb]|[Hid Ha']].
    + lia.
    + now apply (non_negative _ C).
Qed.

(** ** Account numbers *)

Lemma generate_account_number_Return db draws number :
  generate_account_number db draws = Return number ->
  select_account db number = None /\ exists d, In d draws /\ number = Str.of_int d.
Proof.
  induction draws as [|d rest IH]; simpl; [discriminate|].
  destruct (select_account db (Str.of_int d)) eqn:E.
  - intros H. destruct (IH H) as [Hn [d' [Hd' ->]]]. split; [exact Hn|]. eauto.
  - intros [= <-]. split; [exact E|]. eauto.
Qed.

Lemma generate_account_number_no_raise db draws e :
  generate_account_number db draws <> Raise e.
Proof.
  induction draws as [|d rest IH]; simpl; [discriminate|].
  destruct (select_account db (Str.of_int d)); [exact IH|discriminate].
Qed.

(** Draws that hit an account are skipped; the first free one is returned. *)
Lemma generate_account_number_skips db taken d rest :
  Forall (fun x => select_account db (Str.of_int x) <> None) taken ->
  select_account db (Str.of_int d) = None ->
  generate_account_number db (taken ++ d :: rest) = Return (Str.of_int d).
Proof.
  intros Htaken Hfree. induction Htaken as [|x l Hx _ IH]; simpl.
  - now rewrite Hfree.
  - destruct (select_account db (Str.of_int x)); [exact IH|congruence].
Qed.

(** ** Creation *)

Lemma create_account_rows_free db number first last ty cur init now :
  select_account db number = None ->
  create_account_rows number first last ty cur init now db =
  (Return (created_dict (seq_accounts db + 1) number first last ty cur init),
   created_rows db number first last ty cur init now).
Proof.
  intros Hfree. unfold create_account_rows, insert_account, created_rows.
  rewrite Hfree. unfold insert_transaction. simpl.
  now destruct (0 <? init).
Qed.

Lemma create_account_rows_taken db number first last ty cur init now a :
  select_account db number = Some a ->
  create_account_rows number first last ty cur init now db =
  (Raise (IntegrityError "UNIQUE constraint failed: accounts.account_number"), db).
Proof.
  intros Htaken. unfold create_account_rows, insert_account. now rewrite Htaken.
Qed.

Lemma truthy_false s : Str.truthy s = false <-> s = "".
Proof. destruct s; simpl; split; congruence. Qed.

Lemma name_check s :
  negb (Str.truthy s) || negb (Str.truthy (Str.strip s)) = true <-> Str.strip s = "".
Proof.
  rewrite orb_true_iff, !negb_true_iff, !truthy_false. split.
  - intros [->|H]; [reflexivity|exact H].
  - auto.
Qed.

Lemma type_check ty :
  bool_decide (ty ∈ ["checking"; "savings"]) = true <->
  ty = "checking" \/ ty = "savings".
Proof.
  rewrite bool_decide_eq_true, !elem_of_cons, elem_of_nil. tauto.
Qed.

Lemma create_account_valid first last ty cur init draws now db :
  valid_arguments first last ty cur init ->
  create_account first last ty cur init draws now db =
  match generate_account_number db draws with
  | Return number => create_account_rows number first last ty cur init now db
  | Raise e => (Raise e, db)
  | Spinning => (Spinning, db)
  end.
Proof.
  intros (Hf & Hl & Hty & Hcur & Hinit). unfold create_account.
  destruct (negb (Str.truthy first) || negb (Str.truthy (Str.strip first))) eqn:E1.
  { apply name_check in E1. contradiction. }
  destruct (negb (Str.truthy last) || negb (Str.truthy (Str.strip last))) eqn:E2.
  { apply name_check in E2. contradiction. }
  apply type_check in Hty. rewrite Hty. simpl.
  unfold is_valid_currency. rewrite bool_decide_eq_true_2 by exact Hcur. simpl.
  destruct (init <? 0) eqn:E3; [lia|]. reflexivity.
Qed.

Lemma create_account_invalid_args first last ty cur init draws now db :
  ~ valid_arguments first last ty cur init ->
  exists msg, create_account first last ty cur init draws now db =
              (Raise (ValueError msg), db).
Proof.
  intros Hbad. unfold create_account.
  destruct (negb (Str.truthy first) || negb (Str.truthy (Str.strip first))) eqn:E1;
    [eauto|].
  destruct (negb (Str.truthy last) || negb (Str.truthy (Str.strip last))) eqn:E2;
    [eauto|].
  destruct (bool_decide (ty ∈ ["checking"; "savings"])) eqn:E3; simpl; [|eauto].
  destruct (is_valid_currency cur) eqn:E4; simpl; [|eauto].
  destruct (init <? 0) eqn:E5; [eauto|].
  exfalso. apply Hbad. unfold valid_arguments.
  assert (Hf : Str.strip first <> "") by (intros Hs; apply name_check in Hs; congruence).
  assert (Hl : Str.strip last <> "") by (intros Hs; apply name_check in Hs; congruence).
  apply type_check in E3. apply bool_decide_eq_true in E4.
  repeat split; auto. lia.
Qed.

(** Every outcome of [create_account], with the store it leaves. *)
Lemma create_account_cases first last ty cur init draws now db :
  (exists number,
     valid_arguments first last ty cur init /\
     generate_account_number db draws = Return number /\
     select_account db number = None /\
     create_account first last ty cur init draws now db =
       (Return (created_dict (seq_accounts db + 1) number first last ty cur init),
        created_rows db number first last ty cur init now)) \/
  (exists msg, create_account first last ty cur init draws now db =
                 (Raise (ValueError msg), db)) \/
  create_account first last ty cur init draws now db = (Spinning, db).
Proof.
  destruct (decide (valid_arguments first last ty cur init)) as [Hv|Hbad].
  2:{ right. left. now apply create_account_invalid_args. }
  rewrite (create_account_valid _ _ _ _ _ draws now db Hv).
  destruct (generate_account_number db draws) as [number|e|] eqn:G.
  - left. exists number. apply generate_account_number_Return in G as Hfree.
    destruct Hfree as [Hfree _].
    split; [exact Hv|]. split; [reflexivity|]. split; [exact Hfree|].
    now apply create_account_rows_free.
  - exfalso. now apply (generate_account_number_no_raise db draws e).
  - right. right. reflexivity.
Qed.

Lemma NoDup_app_snoc {A} (l : list A) x :
  List.NoDup l -> ~ In x l -> List.NoDup (l ++ [x]).
Proof.
  induction l as [|y l IH]; simpl; intros Hnd Hx.
  - constructor; [intros []|constructor].
  - apply List.NoDup_cons_iff in Hnd as [Hy Hnd]. constructor.
    + rewrite List.in_app_iff. simpl. intros [H|[H|[]]]; [tauto|]. apply Hx. now left.
    + apply IH; tauto.
Qed.

Lemma history_created_old db number first last ty cur init now a :
  consistent db -> In a (accounts db) ->
  history (created_rows db number first last ty cur init now) a = history db a.
Proof.
  intros C Hin. unfold history, created_rows. simpl.
  destruct (0 <? init); [|reflexivity].
  rewrite List.filter_app. simpl.
  rewrite bool_decide_eq_false_2; [apply app_nil_r|].
  pose proof (ids_bounded _ C a Hin). lia.
Qed.

Lemma history_created_new db number first last ty cur init now :
  consistent db ->
  history (created_rows db number first last ty cur init now)
          (mkAccount (seq_accounts db + 1) number (Str.strip first) (Str.strip last)
                     ty cur init now) =
  if 0 <? init
  then [mkTransaction (seq_transactions db + 1) (seq_accounts db + 1) "deposit"
                      init init "Initial deposit" now]
  else [].
Proof.
  intros C.
  pose proof (history_new_account db
    (mkAccount (seq_accounts db + 1) number (Str.strip first) (Str.strip last)
               ty cur init now) (owners_bounded _ C)) as Hold.
  unfold history in *. unfold created_rows. simpl in *.
  destruct (0 <? init).
  - rewrite List.filter_app, Hold by lia. simpl.
    now rewrite bool_decide_eq_true_2.
  - apply Hold. lia.
Qed.

Lemma created_rows_consistent db number first last ty cur init now :
  consistent db -> select_account db number = None -> 0 <= init ->
  consistent (created_rows db number first last ty cur init now).
Proof.
  intros C Hfree Hinit.
  set (new := mkAccount (seq_accounts db + 1) number (Str.strip first)
                        (Str.strip last) ty cur init now).
  assert (Hacc : accounts (created_rows db number first last ty cur init now) =
                 accounts db ++ [new]) by reflexivity.
  assert (Hseq : seq_accounts (created_rows db number first last ty cur init now) =
                 seq_accounts db + 1) by reflexivity.
  assert (Hnew : history (created_rows db number first last ty cur init now) new =
                 if 0 <? init
                 then [mkTransaction (seq_transactions db + 1) (seq_accounts db + 1)
                         "deposit" init init "Initial deposit" now]
                 else []) by now apply history_created_new.
  assert (Hsplit : forall a, In a (accounts db ++ [new]) -> In a (accounts db) \/ a = new).
  { intros a Ha. apply List.in_app_iff in Ha as [Ha|[<-|[]]]; auto. }
  constructor; rewrite ?Hacc, ?Hseq.
  - rewrite List.map_app. simpl. apply NoDup_app_snoc.
    + apply (numbers_unique _ C).
    + intros Hin. apply List.in_map_iff in Hin as [a [Ha Hin]].
      now apply (select_account_None db number a Hfree).
  - rewrite List.map_app. simpl. apply NoDup_app_snoc.
    + apply (ids_unique _ C).
    + intros Hin. apply List.in_map_iff in Hin as [a [Ha Hin]].
      pose proof (ids_bounded _ C a Hin). lia.
  - intros a Ha. apply Hsplit in Ha as [Ha| ->].
    + pose proof (ids_bounded _ C a Ha). lia.
    + simpl. lia.
  - intros t Ht. unfold created_rows in Ht. simpl in Ht.
    assert (In t (transactions db) \/ t_account_id t = seq_accounts db + 1) as [Hold|Hid].
    { destruct (0 <? init); [|now left].
      apply List.in_app_iff in Ht as [Ht|[<-|[]]]; [now left|now right]. }
    + pose proof (owners_bounded _ C t Hold). lia.
    + lia.
  - intros a Ha. apply Hsplit in Ha as [Ha| ->].
    + rewrite history_created_old by assumption. now apply (conservation _ C).
    + rewrite Hnew. destruct (0 <? init) eqn:E; unfold total; simpl; lia.
  - intros a Ha. apply Hsplit in Ha as [Ha| ->].
    + rewrite history_created_old by assumption. now apply (running _ C).
    + rewrite Hnew. destruct (0 <? init) eqn:E; unfold latest_balance; simpl; lia.
  - intros a Ha. apply Hsplit in Ha as [Ha| ->].
    + now apply (non_negative _ C).
    + simpl. lia.
Qed.

(** ** The invariant holds in every reachable store *)

Lemma empty_db_consistent : consistent empty_db.
Proof. constructor; simpl; try constructor; intros ? []. Qed.

Lemma exec_consistent db c : consistent db -> consistent (exec db c).
Proof.
  intros C. unfold exec. destruct c as [f l ty cur init draws now|n amt d now|n amt d now];
    simpl.
  - destruct (create_account_cases f l ty cur init draws now db)
      as [[number (Hv & _ & Hfree & ->)]|[[msg ->]| ->]]; simpl; auto.
    apply created_rows_consistent; auto. apply Hv.
  - unfold deposit. destruct (amt <=? 0) eqn:E; [exact C|].
    destruct (select_account db n) as [account|] eqn:S; [|exact C]. simpl.
    apply movement_consistent; auto.
    pose proof (select_account_Some db n account S) as [Hin _].
    pose proof (non_negative _ C account Hin). lia.
  - unfold withdraw. destruct (amt <=? 0) eqn:E; [exact C|].
    destruct (select_account db n) as [account|] eqn:S; [|exact C].
    destruct (a_balance account <? amt) eqn:F; [exact C|]. simpl.
    apply movement_consistent; auto. lia.
Qed.

Lemma reachable_consistent db : reachable db -> consistent db.
Proof.
  induction 1 as [|db c _ IH]; [apply empty_db_consistent|now apply exec_consistent].
Qed.

Lemma exec_all_reachable cs db : reachable db -> reachable (exec_all cs db).
Proof.
  revert db. induction cs as [|c cs IH]; simpl; intros db R; [exact R|].
  apply IH. now constructor.
Qed.

(** ** Reading an account back after a write *)

Lemma select_account_update_balance db number b account :
  select_account db number = Some account ->
  select_account (update_balance db b number) number = Some (set_balance b account).
Proof.
  unfold select_account, update_balance. simpl.
  induction (accounts db) as [|a l IH]; simpl; [discriminate|].
  destruct (bool_decide (a_account_number a = number)) eqn:E.
  - intros [= ->]. simpl. now rewrite E.
  - rewrite E. exact IH.
Qed.

Lemma select_account_insert_transaction db id ty amt bal d now number :
  select_account (insert_transaction db id ty amt bal d now) number =
  select_account db number.
Proof. reflexivity. Qed.

Lemma select_account_created db number first last ty cur init now :
  select_account db number = None ->
  select_account (created_rows db number first last ty cur init now) number =
  Some (mkAccount (seq_accounts db + 1) number (Str.strip first) (Str.strip last)
                  ty cur init now).
Proof.
  unfold select_account, created_rows. simpl. intros Hfree.
  induction (accounts db) as [|a l IH]; simpl in *.
  - now rewrite bool_decide_eq_true_2.
  - destruct (bool_decide (a_account_number a = number)); [discriminate|]. now apply IH.
Qed.

(** ** The ledger engine *)

(** C3.  After every call, the balance of every account is the
    [balance_after] of its most recently recorded transaction, or zero
    when it has none. *)
Theorem balance_is_latest_balance_after (cs : list call) (a : account_row) :
  In a (accounts (exec_all cs empty_db)) ->
  a_balance a = latest_balance (history (exec_all cs empty_db) a).
Proof.
  apply running, reachable_consistent, exec_all_reachable, reachable_empty.
Qed.

Lemma balance_is_latest_balance_after_witness :
  a_balance sample_account = latest_balance (history sample_db sample_account).
Proof.
  apply (balance_is_latest_balance_after sample_calls sample_account).
  vm_compute. left. reflexivity.
Defined.

(** C5.  [create_account] raises [ValueError], with the message of the
    first check that fails, whenever the first or the last name is empty
    once stripped, the account type is neither "checking" nor "savings",
    the currency code is not in [CURRENCIES], or the initial deposit is
    negative; the store is then the one it started from: no account row
    and no transaction has been written. *)
Theorem create_account_rejects (first last ty cur : string) (init : Z)
    (draws : list Z) (now : Z) (db : Database) :
  Str.strip first = "" \/ Str.strip last = "" \/
  ~ (ty = "checking" \/ ty = "savings") \/
  CURRENCIES !! cur = None \/ init < 0 ->
  exists msg,
    In msg ["First name is required"; "Last name is required";
            "Account type must be 'checking' or 'savings'";
            "Invalid currency: " +:+ cur;
            "Initial deposit cannot be negative"] /\
    create_account first last ty cur init draws now db = (Raise (ValueError msg), db).
Proof.
  intros Hbad. unfold create_account.
  destruct (negb (Str.truthy first) || negb (Str.truthy (Str.strip first))) eqn:E1.
  { eexists. split; [|reflexivity]. simpl. tauto. }
  destruct (negb (Str.truthy last) || negb (Str.truthy (Str.strip last))) eqn:E2.
  { eexists. split; [|reflexivity]. simpl. tauto. }
  destruct (bool_decide (ty ∈ ["checking"; "savings"])) eqn:E3; simpl.
  2:{ eexists. split; [|reflexivity]. simpl. tauto. }
  destruct (is_valid_currency cur) eqn:E4; simpl.
  2:{ eexists. split; [|reflexivity]. simpl. tauto. }
  destruct (init <? 0) eqn:E5.
  { eexists. split; [|reflexivity]. simpl. tauto. }
  exfalso.
  apply type_check in E3. apply bool_decide_eq_true in E4. destruct E4 as [c Hc].
  destruct Hbad as [H|[H|[H|[H|H]]]].
  - apply name_check in H. congruence.
  - apply name_check in H. congruence.
  - contradiction.
  - congruence.
  - lia.
Qed.

Lemma create_account_rejects_witness :
  exists msg,
    In msg ["First name is required"; "Last name is required";
            "Account type must be 'checking' or 'savings'";
            "Invalid currency: ZZZ";
            "Initial deposit cannot be negative"] /\
    create_account "Alice" "Lee" "checking" "ZZZ" 0 [123456] 1003 sample_db =
      (Raise (ValueError msg), sample_db).
Proof.
  apply (create_account_rejects "Alice" "Lee" "checking" "ZZZ" 0 [123456] 1003 sample_db).
  right. right. right. left. vm_compute. reflexivity.
Defined.

(** C10.  [deposit] and [withdraw] check the amount before they look the
    account up: with an amount of zero or less and an account number that
    no account carries, each raises its "amount must be positive"
    [ValueError], not the "not found" one, and leaves the store as it
    was. *)
Theorem amount_checked_before_account (number description : string)
    (amount now : Z) (db : Database) :
  amount <= 0 ->
  get_account db number = None ->
  deposit number amount description now db =
    (Raise (ValueError "Deposit amount must be positive"), db) /\
  withdraw number amount description now db =
    (Raise (ValueError "Withdrawal amount must be positive"), db).
Proof.
  intros Hamt _. unfold deposit, withdraw.
  destruct (amount <=? 0) eqn:E; [split; reflexivity|lia].
Qed.

Lemma amount_checked_before_account_witness :
  deposit "000000" (-500) "" 1003 sample_db =
    (Raise (ValueError "Deposit amount must be positive"), sample_db) /\
  withdraw "000000" (-500) "" 1003 sample_db =
    (Raise (ValueError "Withdrawal amount must be positive"), sample_db).
Proof.
  apply (amount_checked_before_account "000000" "" (-500) 1003 sample_db).
  - lia.
  - vm_compute. reflexivity.
Defined.

(** [create_account] on valid arguments when the draws reach a free number. *)
Lemma create_account_returns first last ty cur init taken d rest now db :
  valid_arguments first last ty cur init ->
  Forall (fun x => select_account db (Str.of_int x) <> None) taken ->
  select_account db (Str.of_int d) = None ->
  create_account first last ty cur init (taken ++ d :: rest) now db =
  (Return (created_dict (seq_accounts db + 1) (Str.of_int d) first last ty cur init),
   created_rows db (Str.of_int d) first last ty cur init now).
Proof.
  intros Hv Htaken Hfree. rewrite create_account_valid by exact Hv.
  rewrite generate_account_number_skips by assumption.
  now apply create_account_rows_free.
Qed.

(** C6.  On valid arguments, with [d] the first draw whose number is free,
    [create_account] returns a dict whose balance is the initial deposit
    and appends the account row with that balance.  With an initial
    deposit above zero it appends exactly one transaction, of type
    "deposit", whose amount and [balance_after] are the initial deposit and
    whose description is "Initial deposit"; with an initial deposit of zero
    the transactions are untouched and the balance is zero. *)
Theorem create_account_initial_deposit (first last ty cur : string) (init : Z)
    (taken : list Z) (d : Z) (rest : list Z) (now : Z) (db : Database) :
  valid_arguments first last ty cur init ->
  Forall (fun x => select_account db (Str.of_int x) <> None) taken ->
  select_account db (Str.of_int d) = None ->
  let r := create_account first last ty cur init (taken ++ d :: rest) now db in
  let id := seq_accounts db + 1 in
  let row := mkAccount id (Str.of_int d) (Str.strip first) (Str.strip last)
                       ty cur init now in
  (exists dict, fst r = Return dict /\ dict !! "balance" = Some (VAmount init)) /\
  accounts (snd r) = accounts db ++ [row] /\
  select_account (snd r) (Str.of_int d) = Some row /\
  a_balance row = init /\
  (0 < init ->
   transactions (snd r) =
   transactions db ++ [mkTransaction (seq_transactions db + 1) id "deposit" init init
                                     "Initial deposit" now]) /\
  (init = 0 -> transactions (snd r) = transactions db /\ a_balance row = 0).
Proof.
  intros Hv Htaken Hfree. cbv zeta.
  rewrite (create_account_returns _ _ _ _ _ _ _ rest now db Hv Htaken Hfree). simpl.
  split; [eexists; split; [reflexivity|reflexivity]|].
  split; [reflexivity|].
  split; [now apply select_account_created|].
  split; [reflexivity|].
  split.
  - intros Hpos. destruct (0 <? init) eqn:E; [reflexivity|lia].
  - intros ->. split; reflexivity.
Qed.

Lemma create_account_initial_deposit_witness :
  transactions (snd (create_account "Bo" "Ray" "savings" "BB" 2500 [123456; 654321]
                                    1003 sample_db)) =
  transactions sample_db ++ [mkTransaction 3 2 "deposit" 2500 2500 "Initial deposit" 1003].
Proof.
  assert (Hv : valid_arguments "Bo" "Ray" "savings" "BB" 2500).
  { unfold valid_arguments. repeat split; try discriminate; try lia; auto. }
  assert (Htaken : Forall (fun x => select_account sample_db (Str.of_int x) <> None)
                          [123456]).
  { constructor; [vm_compute; discriminate|constructor]. }
  assert (Hfree : select_account sample_db (Str.of_int 654321) = None)
    by (vm_compute; reflexivity).
  pose proof (create_account_initial_deposit "Bo" "Ray" "savings" "BB" 2500 [123456]
                654321 [] 1003 sample_db Hv Htaken Hfree) as H.
  cbv zeta in H. destruct H as (_ & _ & _ & _ & Hpos & _).
  apply Hpos. lia.
Defined.

(** C8 as stated fails: the dict that a successful [create_account]
    returns has no "created_at" entry. *)
Lemma created_dict_lacks_timestamp :
  exists dict db',
    create_account "Alice" "Lee" "checking" "USD" 0 [123456] 1000 empty_db =
      (Return dict, db') /\
    dict !! "created_at" = None.
Proof. eexists. eexists. split; [reflexivity|]. vm_compute. reflexivity. Qed.

(** C8, amended.  When [create_account] returns, its dict carries the row
    id, the assigned account number, the stripped names, the account type,
    the currency and the balance, and nothing under "created_at"; the
    creation time is in the stored row, where [get_account] reads it. *)
Theorem create_account_snapshot (first last ty cur : string) (init : Z)
    (draws : list Z) (now : Z) (db : Database) (dict : gmap string value)
    (db' : Database) :
  create_account first last ty cur init draws now db = (Return dict, db') ->
  exists number,
    dict !! "id" = Some (VInt (seq_accounts db + 1)) /\
    dict !! "account_number" = Some (VStr number) /\
    dict !! "first_name" = Some (VStr (Str.strip first)) /\
    dict !! "last_name" = Some (VStr (Str.strip last)) /\
    dict !! "account_type" = Some (VStr ty) /\
    dict !! "currency" = Some (VStr cur) /\
    dict !! "balance" = Some (VAmount init) /\
    dict !! "created_at" = None /\
    exists stored, get_account db' number = Some stored /\
                   stored !! "account_number" = Some (VStr number) /\
                   stored !! "created_at" = Some (VTime now).
Proof.
  intros Hret.
  destruct (create_account_cases first last ty cur init draws now db)
    as [[number (_ & _ & Hfree & Heq)]|[[msg Heq]|Heq]];
    rewrite Heq in Hret; try discriminate.
  injection Hret as <- <-. exists number.
  repeat (split; [reflexivity|]).
  unfold get_account. rewrite select_account_created by exact Hfree.
  eexists. split; [reflexivity|]. split; reflexivity.
Qed.

Lemma create_account_snapshot_witness :
  exists number,
    created_dict 1 "123456" "Alice" "Lee" "checking" "USD" 0 !! "account_number" =
      Some (VStr number) /\
    created_dict 1 "123456" "Alice" "Lee" "checking" "USD" 0 !! "created_at" = None.
Proof.
  destruct (create_account_snapshot "Alice" "Lee" "checking" "USD" 0 [123456] 1000
              empty_db
              (created_dict 1 "123456" "Alice" "Lee" "checking" "USD" 0)
              (created_rows empty_db "123456" "Alice" "Lee" "checking" "USD" 0 1000)
              eq_refl)
    as (number & _ & Hnum & _ & _ & _ & _ & _ & Hts & _).
  exists number. split; assumption.
Defined.

(** ** Account numbers are unique, and where a collision is met *)

(** C4 as stated fails: a collision that the store signals at insert time
    is raised to the caller, not retried.  The number was free when
    [generate_account_number] looked it up; another writer took it before
    the [INSERT]. *)
Lemma insert_collision_is_raised :
  generate_account_number sample_db [654321] = Return "654321" /\
  (let db1 := exec sample_db (CreateAccount "Bo" "Ray" "savings" "BB" 0 [654321] 1003) in
   create_account_rows "654321" "Cy" "Poe" "checking" "USD" 0 1003 db1 =
   (Raise (IntegrityError "UNIQUE constraint failed: accounts.account_number"), db1)).
Proof. split; vm_compute; reflexivity. Qed.

(** C4, amended.  [create_account] meets a collision in the lookup that
    precedes the insert: draws whose number is taken are passed over
    without the caller seeing them, and the call returns with the first
    free number.  Run from start to end on a store, it never raises an
    [IntegrityError], and no two accounts of a reachable store share an
    account number.  The [INSERT] itself, on a number that is taken,
    raises the [IntegrityError] of the [UNIQUE] constraint and writes
    nothing. *)
Theorem create_account_collisions (first last ty cur : string) (init : Z)
    (taken : list Z) (d : Z) (rest : list Z) (now : Z) (db : Database)
    (cs : list call) :
  valid_arguments first last ty cur init ->
  Forall (fun x => select_account db (Str.of_int x) <> None) taken ->
  select_account db (Str.of_int d) = None ->
  (exists dict,
     create_account first last ty cur init (taken ++ d :: rest) now db =
       (Return dict, created_rows db (Str.of_int d) first last ty cur init now) /\
     dict !! "account_number" = Some (VStr (Str.of_int d))) /\
  (forall draws msg,
     fst (create_account first last ty cur init draws now db) <>
     Raise (IntegrityError msg)) /\
  List.NoDup (List.map a_account_number (accounts (exec_all cs empty_db))) /\
  (forall number a,
     select_account db number = Some a ->
     create_account_rows number first last ty cur init now db =
     (Raise (IntegrityError "UNIQUE constraint failed: accounts.account_number"), db)).
Proof.
  intros Hv Htaken Hfree. split; [|split; [|split]].
  - eexists. split; [now apply create_account_returns|reflexivity].
  - intros draws msg.
    destruct (create_account_cases first last ty cur init draws now db)
      as [[number (_ & _ & _ & ->)]|[[m ->]| ->]]; discriminate.
  - apply numbers_unique, reachable_consistent, exec_all_reachable, reachable_empty.
  - intros number a Ha. now apply (create_account_rows_taken db number _ _ _ _ _ _ a).
Qed.

Lemma create_account_collisions_witness :
  exists dict,
    create_account "Bo" "Ray" "savings" "BB" 2500 [123456; 654321] 1003 sample_db =
      (Return dict,
       created_rows sample_db "654321" "Bo" "Ray" "savings" "BB" 2500 1003) /\
    dict !! "account_number" = Some (VStr "654321").
Proof.
  assert (Hv : valid_arguments "Bo" "Ray" "savings" "BB" 2500).
  { unfold valid_arguments. repeat split; try discriminate; try lia; auto. }
  assert (Htaken : Forall (fun x => select_account sample_db (Str.of_int x) <> None)
                          [123456]).
  { constructor; [vm_compute; discriminate|constructor]. }
  assert (Hfree : select_account sample_db (Str.of_int 654321) = None)
    by (vm_compute; reflexivity).
  exact (proj1 (create_account_collisions "Bo" "Ray" "savings" "BB" 2500 [123456]
                  654321 [] 1003 sample_db sample_calls Hv Htaken Hfree)).
Defined.

(** ** Listing transactions *)

Lemma insert_desc_oldest t l :
  Forall (fun u => t_created_at t < t_created_at u) l -> insert_desc t l = l ++ [t].
Proof.
  induction 1 as [|u l Hu _ IH]; simpl; [reflexivity|].
  destruct (t_created_at t <? t_created_at u) eqn:E; [now rewrite IH|lia].
Qed.

(** When every transaction falls in a later second than the one before
    it, the ordering is the insertion order reversed. *)
Lemma order_by_created_at_desc_increasing l :
  StronglySorted (fun t u => t_created_at t < t_created_at u) l ->
  order_by_created_at_desc l = rev l.
Proof.
  induction 1 as [|t l _ IH Ht]; simpl; [reflexivity|].
  rewrite IH. apply insert_desc_oldest.
  apply List.Forall_forall. intros u Hu. apply List.in_rev in Hu.
  now apply (proj1 (List.Forall_forall _ _) Ht).
Qed.

(** With the two movements one second apart the listing is the one of
    scenario 1. *)
Lemma listing_distinct_seconds :
  List.map summary (select_transactions sample_db "123456" 10) =
  [("withdrawal", 3000, 7000); ("deposit", 10000, 10000)].
Proof. vm_compute. reflexivity. Qed.

(** C7, at its failing input.  With the deposit and the withdrawal of
    scenario 1 made within the same second, [get_transactions] lists the
    deposit before the withdrawal, and with a limit of one it lists the
    deposit alone: the most recent transaction is not first. *)
Theorem same_second_listing :
  List.map summary (select_transactions (exec_all same_second_calls empty_db) "123456" 10) =
    [("deposit", 10000, 10000); ("withdrawal", 3000, 7000)] /\
  List.map summary (select_transactions (exec_all same_second_calls empty_db) "123456" 1) =
    [("deposit", 10000, 10000)] /\
  (get_transactions (exec_all same_second_calls empty_db) "123456" 10 !! 0%nat)
    ≫= (fun d => d !! "transaction_type") = Some (VStr "deposit").
Proof. repeat split; vm_compute; reflexivity. Qed.

(** ** Decimal digits *)

Arguments Str.digit : simpl never.
Arguments digit_value : simpl never.
Arguments is_digit : simpl never.

Lemma digit_spec d :
  0 <= d <= 9 -> digit_value (Str.digit d) = d /\ is_digit (Str.digit d) = true.
Proof.
  intros Hd.
  assert (H : d = 0 \/ d = 1 \/ d = 2 \/ d = 3 \/ d = 4 \/ d = 5 \/ d = 6 \/ d = 7 \/
              d = 8 \/ d = 9) by lia.
  repeat (destruct H as [->|H]; [split; reflexivity|]). subst d. split; reflexivity.
Qed.

Lemma digit_zero d : 0 <= d <= 9 -> Str.digit d = "0"%char -> d = 0.
Proof.
  intros Hd Hz. pose proof (proj1 (digit_spec d Hd)) as Hv. rewrite Hz in Hv.
  vm_compute in Hv. congruence.
Qed.

Lemma decimal_app l1 l2 :
  decimal (l1 ++ l2) = fold_left (fun v c => 10 * v + digit_value c) l2 (decimal l1).
Proof. unfold decimal. apply fold_left_app. Qed.

Lemma decimal_snoc l c : decimal (l ++ [c]) = 10 * decimal l + digit_value c.
Proof. now rewrite decimal_app. Qed.

Lemma decimal_single c : decimal [c] = digit_value c.
Proof. unfold decimal. cbn [fold_left]. lia. Qed.

Lemma digits_single d :
  0 <= d <= 9 ->
  decimal [Str.digit d] = d /\
  forallb is_digit [Str.digit d] = true /\
  [Str.digit d] <> [] /\
  (hd "0"%char [Str.digit d] = "0"%char -> d = 0).
Proof.
  intros Hd. destruct (digit_spec d Hd) as [Hv Hdig].
  rewrite decimal_single. cbn [forallb hd]. rewrite Hdig.
  repeat split; auto; try discriminate. now apply digit_zero.
Qed.

Lemma digits_from_spec fuel : forall n,
  0 <= n < 10 ^ (Z.of_nat fuel + 1) ->
  decimal (Str.digits_from fuel n) = n /\
  forallb is_digit (Str.digits_from fuel n) = true /\
  Str.digits_from fuel n <> [] /\
  (hd "0"%char (Str.digits_from fuel n) = "0"%char -> n = 0).
Proof.
  induction fuel as [|k IH]; intros n Hn.
  - change (10 ^ (Z.of_nat 0 + 1)) with 10 in Hn. cbn [Str.digits_from].
    rewrite Z.mod_small by lia. apply digits_single. lia.
  - cbn [Str.digits_from]. destruct (n <? 10) eqn:E.
    + apply digits_single. lia.
    + assert (Hq : 0 <= n / 10 < 10 ^ (Z.of_nat k + 1)).
      { split; [apply Z.div_pos; lia|].
        apply Z.div_lt_upper_bound; [lia|].
        replace (Z.of_nat (S k) + 1) with (Z.succ (Z.of_nat k + 1)) in Hn by lia.
        rewrite Z.pow_succ_r in Hn by lia. lia. }
      destruct (IH _ Hq) as (Hv & Hdig & Hne & Hhd).
      assert (Hr : 0 <= n mod 10 <= 9) by (pose proof (Z.mod_pos_bound n 10); lia).
      destruct (digit_spec _ Hr) as [Hrv Hrdig].
      split; [|split; [|split]].
      * rewrite decimal_snoc, Hv, Hrv. pose proof (Z.div_mod n 10). lia.
      * rewrite forallb_app, Hdig. cbn [forallb]. now rewrite Hrdig.
      * destruct (Str.digits_from k (n / 10)); discriminate.
      * intros Hz. exfalso.
        destruct (Str.digits_from k (n / 10)) as [|c l] eqn:D; [congruence|].
        cbn [hd app] in Hz, Hhd. specialize (Hhd Hz).
        assert (n / 10 >= 1); [|lia].
        apply Z.le_ge. apply Z.div_le_lower_bound; lia.
Qed.

Lemma log2_fuel n : 0 <= n -> n < 10 ^ (Z.of_nat (Z.to_nat (Z.log2 n)) + 1).
Proof.
  intros Hn. rewrite Z2Nat.id by apply Z.log2_nonneg.
  destruct (Z.eq_dec n 0) as [->|Hnz]; [reflexivity|].
  assert (Hlt : n < 2 ^ Z.succ (Z.log2 n)) by (apply Z.log2_spec; lia).
  eapply Z.lt_le_trans; [exact Hlt|].
  apply Z.pow_le_mono_l. pose proof (Z.log2_nonneg n). lia.
Qed.

Lemma digits_spec n :
  0 <= n ->
  decimal (Str.digits n) = n /\
  forallb is_digit (Str.digits n) = true /\
  Str.digits n <> [] /\
  (hd "0"%char (Str.digits n) = "0"%char -> n = 0).
Proof.
  intros Hn. apply digits_from_spec. split; [exact Hn|now apply log2_fuel].
Qed.


(** ** Thousands grouping *)






(** ** The currency registry *)

Lemma CURRENCIES_lookup c cur :
  CURRENCIES !! c = Some cur ->
  (c = "USD" /\ cur = mkCurrency "USD" "US Dollars" "$") \/
  (c = "BB" /\ cur = mkCurrency "BB" "BrainBucks" "BB").
Proof.
  unfold CURRENCIES. rewrite lookup_insert_Some, lookup_insert_Some, lookup_empty.
  intros [[<- <-]|[_ [[<- <-]|[_ H]]]]; [now left|now right|discriminate].
Qed.




(** * Further properties of the engine *)

(** ** The shape of every call *)

Lemma or_default_truthy description default :
  default <> "" -> or_default description default <> "".
Proof.
  intros Hd. unfold or_default. destruct description; simpl; [exact Hd|discriminate].
Qed.

Lemma get_account_None db number :
  get_account db number = None <-> select_account db number = None.
Proof.
  unfold get_account. destruct (select_account db number); simpl; split; congruence.
Qed.

(** A call leaves the store as it was, or writes the rows of a creation,
    or writes the two rows of a movement on an existing account. *)
Lemma exec_shape db c :
  exec db c = db \/
  (exists number first last ty cur init draws now,
     c = CreateAccount first last ty cur init draws now /\
     valid_arguments first last ty cur init /\
     select_account db number = None /\
     (exists d, In d draws /\ number = Str.of_int d) /\
     exec db c = created_rows db number first last ty cur init now) \/
  (exists number account ty amount new_balance description now,
     target c = Some number /\
     select_account db number = Some account /\
     0 < amount /\
     (ty = "deposit" /\ new_balance = a_balance account + amount \/
      ty = "withdrawal" /\ new_balance = a_balance account - amount /\
      amount <= a_balance account) /\
     description <> "" /\
     exec db c = insert_transaction (update_balance db new_balance number)
                   (a_id account) ty amount new_balance description now).
Proof.
  unfold exec. destruct c as [f l ty cur init draws now|n amt d now|n amt d now]; simpl.
  - destruct (create_account_cases f l ty cur init draws now db)
      as [[number (Hv & Hgen & Hfree & ->)]|[[msg ->]| ->]]; simpl; auto.
    right. left. exists number, f, l, ty, cur, init, draws, now.
    apply generate_account_number_Return in Hgen as [_ Hd]. auto 6.
  - unfold deposit. destruct (amt <=? 0) eqn:E; [now left|].
    destruct (select_account db n) as [account|] eqn:S; [|now left]. simpl.
    right. right.
    exists n, account, "deposit", amt, (a_balance account + amt),
           (or_default d "Deposit"), now.
    repeat split; auto; try lia. now apply or_default_truthy.
  - unfold withdraw. destruct (amt <=? 0) eqn:E; [now left|].
    destruct (select_account db n) as [account|] eqn:S; [|now left].
    destruct (a_balance account <? amt) eqn:F; [now left|]. simpl.
    right. right.
    exists n, account, "withdrawal", amt, (a_balance account - amt),
           (or_default d "Withdrawal"), now.
    split; [reflexivity|]. split; [exact S|]. split; [lia|].
    split; [right; repeat split; lia|]. split; [now apply or_default_truthy|reflexivity].
Qed.

(** ** Unknown accounts *)

(** X1.  With an amount above zero and an account number that no account
    carries, [deposit] and [withdraw] raise "Account <number> not found"
    and leave the store as it was. *)
Theorem movement_unknown_account (number description : string) (amount now : Z)
    (db : Database) :
  0 < amount ->
  get_account db number = None ->
  deposit number amount description now db =
    (Raise (ValueError ("Account " +:+ number +:+ " not found")), db) /\
  withdraw number amount description now db =
    (Raise (ValueError ("Account " +:+ number +:+ " not found")), db).
Proof.
  intros Hpos Hnone. apply get_account_None in Hnone. unfold deposit, withdraw.
  destruct (amount <=? 0) eqn:E; [lia|]. now rewrite Hnone.
Qed.

Lemma movement_unknown_account_witness :
  deposit "000000" 500 "" 1003 sample_db =
    (Raise (ValueError "Account 000000 not found"), sample_db) /\
  withdraw "000000" 500 "" 1003 sample_db =
    (Raise (ValueError "Account 000000 not found"), sample_db).
Proof.
  apply (movement_unknown_account "000000" "" 500 1003 sample_db).
  - lia.
  - vm_compute. reflexivity.
Defined.

(** ** Movements read back *)

(** X2.  A deposit of an amount above zero on an existing account returns
    the old balance plus the amount as [new_balance]; [get_account] then
    reads that balance, every other column of the row being as before, and
    the transaction log has grown by the one deposit row, described
    "Deposit" when no description was given. *)
Theorem deposit_read_back (number description : string) (account : account_row)
    (amount now : Z) (db : Database) :
  select_account db number = Some account ->
  0 < amount ->
  let r := deposit number amount description now db in
  let new_balance := a_balance account + amount in
  fst r = Return (movement_dict number "deposit" amount new_balance) /\
  get_account (snd r) number = Some (account_dict (set_balance new_balance account)) /\
  transactions (snd r) =
    transactions db ++
    [mkTransaction (seq_transactions db + 1) (a_id account) "deposit" amount new_balance
                   (if Str.truthy description then description else "Deposit") now].
Proof.
  intros Hsel Hpos. cbv zeta. unfold deposit.
  destruct (amount <=? 0) eqn:E; [lia|]. rewrite Hsel. simpl.
  split; [reflexivity|]. split; [|reflexivity].
  unfold get_account. rewrite select_account_insert_transaction.
  now rewrite (select_account_update_balance db number _ account Hsel).
Qed.

Lemma deposit_read_back_witness :
  get_account (snd (deposit "123456" 2500 "" 1003 sample_db)) "123456" =
  Some (account_dict (set_balance 9500 sample_account)).
Proof.
  assert (Hsel : select_account sample_db "123456" = Some sample_account)
    by (vm_compute; reflexivity).
  pose proof (deposit_read_back "123456" "" sample_account 2500 1003 sample_db Hsel
                ltac:(lia)) as H.
  cbv zeta in H. exact (proj1 (proj2 H)).
Defined.



(** ** What a call leaves alone *)

Lemma find_app_Some {A} (p : A -> bool) l l' x :
  List.find p l = Some x -> List.find p (l ++ l') = Some x.
Proof.
  induction l as [|y l IH]; simpl; [discriminate|].
  destruct (p y); [auto|exact IH].
Qed.

Lemma select_account_update_other db b n m :
  n <> m -> select_account (update_balance db b n) m = select_account db m.
Proof.
  intros Hne. unfold select_account, update_balance. simpl.
  induction (accounts db) as [|a l IH]; simpl; [reflexivity|].
  destruct (bool_decide (a_account_number a = n)) eqn:E; simpl.
  - apply bool_decide_eq_true in E.
    rewrite !bool_decide_eq_false_2 by congruence. exact IH.
  - destruct (bool_decide (a_account_number a = m)); [reflexivity|exact IH].
Qed.

Lemma existsb_update_balance (p : account_row -> bool) db b n :
  (forall a, p (set_balance b a) = p a) ->
  existsb p (accounts (update_balance db b n)) = existsb p (accounts db).
Proof.
  intros Hp. simpl. induction (accounts db) as [|a l IH]; simpl; [reflexivity|].
  rewrite IH. destruct (bool_decide (a_account_number a = n)); now rewrite ?Hp.
Qed.

Lemma filter_ext_in {A} (p q : A -> bool) l :
  (forall x, In x l -> p x = q x) -> List.filter p l = List.filter q l.
Proof.
  induction l as [|x l IH]; simpl; intros H; [reflexivity|].
  rewrite (H x (or_introl eq_refl)), IH; [reflexivity|]. intros y Hy. apply H. now right.
Qed.

(** No account of a consistent store carries both a given id and a number
    other than the number of the account that has that id. *)
Lemma no_other_owner db account m :
  consistent db -> In account (accounts db) -> a_account_number account <> m ->
  existsb (fun a => bool_decide (a_id account = a_id a)
                    && bool_decide (a_account_number a = m)) (accounts db) = false.
Proof.
  intros C Hin Hne. apply not_true_is_false. intros Hex.
  apply existsb_exists in Hex as [a [Ha Hp]]. apply andb_true_iff in Hp as [Hid Hnum].
  apply bool_decide_eq_true in Hid. apply bool_decide_eq_true in Hnum.
  assert (a = account) as ->; [|contradiction].
  apply (map_key_inj a_id (accounts db)); auto using ids_unique.
Qed.

Lemma joined_created db number first last ty cur init now m a :
  consistent db -> select_account db number = None -> select_account db m = Some a ->
  joined (created_rows db number first last ty cur init now) m = joined db m.
Proof.
  intros C Hfree Hm.
  assert (Hne : number <> m) by congruence.
  assert (Hp : forall t,
    existsb (fun a0 => bool_decide (t_account_id t = a_id a0)
                       && bool_decide (a_account_number a0 = m))
            (accounts (created_rows db number first last ty cur init now)) =
    existsb (fun a0 => bool_decide (t_account_id t = a_id a0)
                       && bool_decide (a_account_number a0 = m)) (accounts db)).
  { intros t. unfold created_rows. simpl. rewrite existsb_app. simpl.
    rewrite (bool_decide_eq_false_2 (number = m)) by exact Hne.
    now rewrite andb_false_r, !orb_false_r. }
  unfold joined. rewrite (filter_ext_in _ _ _ (fun t _ => Hp t)).
  unfold created_rows. simpl. destruct (0 <? init); [|reflexivity].
  rewrite List.filter_app. simpl.
  replace (existsb _ (accounts db)) with false; [apply app_nil_r|].
  symmetry. apply not_true_is_false. intros Hex.
  apply existsb_exists in Hex as [a0 [Ha0 Hq]]. apply andb_true_iff in Hq as [Hid _].
  apply bool_decide_eq_true in Hid. pose proof (ids_bounded _ C a0 Ha0). lia.
Qed.

Lemma joined_movement db n account ty amount nb description now m :
  consistent db -> select_account db n = Some account -> n <> m ->
  joined (insert_transaction (update_balance db nb n) (a_id account) ty amount nb
            description now) m = joined db m.
Proof.
  intros C Hsel Hne. apply select_account_Some in Hsel as [Hin Hnum].
  unfold joined, insert_transaction.
  cbn [accounts transactions].
  assert (Hp : forall t,
    existsb (fun a0 => bool_decide (t_account_id t = a_id a0)
                       && bool_decide (a_account_number a0 = m))
            (accounts (update_balance db nb n)) =
    existsb (fun a0 => bool_decide (t_account_id t = a_id a0)
                       && bool_decide (a_account_number a0 = m)) (accounts db)).
  { intros t. apply existsb_update_balance. reflexivity. }
  rewrite (filter_ext_in _ _ _ (fun t _ => Hp t)).
  change (transactions (update_balance db nb n)) with (transactions db).
  rewrite List.filter_app. cbn [List.filter t_account_id].
  rewrite (no_other_owner db account m C Hin) by congruence. apply app_nil_r.
Qed.

(** A call that raises leaves the store as it was. *)
Lemma raising_call_writes_nothing db c e :
  fst (run c db) = Raise e -> exec db c = db.
Proof.
  unfold exec. destruct c as [f l ty cur init draws now|n amt d now|n amt d now]; simpl.
  - destruct (create_account_cases f l ty cur init draws now db)
      as [[number (_ & _ & _ & ->)]|[[msg ->]| ->]]; simpl;
      [discriminate|reflexivity|reflexivity].
  - unfold deposit. destruct (amt <=? 0); [reflexivity|].
    destruct (select_account db n); simpl; [discriminate|reflexivity].
  - unfold withdraw. destruct (amt <=? 0); [reflexivity|].
    destruct (select_account db n); [|reflexivity].
    destruct (a_balance a <? amt); simpl; [reflexivity|discriminate].
Qed.

(** X5.  In a consistent store, a call leaves the row of an existing
    account [m] as it was, balance included, and leaves the listing of
    its transactions as it was, whatever the limit, whenever the call
    does not move money on [m] or raises.  This covers movements on other
    accounts, every [create_account], and the calls that fail, those on
    [m] itself included. *)
Theorem other_accounts_untouched (db : Database) (c : call) (m : string)
    (a : account_row) (limit : Z) :
  consistent db ->
  select_account db m = Some a ->
  target c <> Some m \/ (exists e, fst (run c db) = Raise e) ->
  select_account (exec db c) m = Some a /\
  get_transactions (exec db c) m limit = get_transactions db m limit.
Proof.
  intros C Hm [Hother|[e He]].
  2:{ rewrite (raising_call_writes_nothing db c e He). split; [exact Hm|reflexivity]. }
  unfold get_transactions, select_transactions.
  destruct (exec_shape db c)
    as [->|[(number & f & l & ty & cur & init & draws & now & _ & _ & Hfree & _ & ->)
           |(n & account & ty & amt & nb & d & now & Ht & Hsel & _ & _ & _ & ->)]].
  - split; [exact Hm|reflexivity].
  - split.
    + unfold select_account, created_rows. simpl. now apply find_app_Some.
    + now rewrite (joined_created db number f l ty cur init now m a).
  - assert (Hne : n <> m) by congruence. split.
    + rewrite select_account_insert_transaction.
      now rewrite select_account_update_other.
    + now rewrite (joined_movement db n account ty amt nb d now m).
Qed.

(** ** The log only grows *)

Lemma exec_appends db c :
  exists new, transactions (exec db c) = transactions db ++ new /\ (length new <= 1)%nat.
Proof.
  destruct (exec_shape db c)
    as [->|[(number & f & l & ty & cur & init & draws & now & _ & _ & _ & _ & ->)
           |(n & account & ty & amt & nb & d & now & _ & _ & _ & _ & _ & ->)]].
  - exists []. rewrite app_nil_r. split; [reflexivity|simpl; lia].
  - unfold created_rows. simpl. destruct (0 <? init).
    + eexists. split; [reflexivity|simpl; lia].
    + exists []. rewrite app_nil_r. split; [reflexivity|simpl; lia].
  - simpl. eexists. split; [reflexivity|simpl; lia].
Qed.

(** X6.  Transactions are append-only: whatever calls are made on a
    store, the rows the log had are still there, unchanged and in place,
    and the calls have added at most one row each. *)
Theorem log_is_append_only (cs : list call) (db : Database) :
  exists new,
    transactions (exec_all cs db) = transactions db ++ new /\
    (length new <= length cs)%nat.
Proof.
  revert db. induction cs as [|c cs IH]; intros db; simpl.
  - exists []. rewrite app_nil_r. split; [reflexivity|simpl; lia].
  - destruct (IH (exec db c)) as (new2 & H2 & L2).
    destruct (exec_appends db c) as (new1 & H1 & L1).
    exists (new1 ++ new2). rewrite H2, H1, app_assoc. split; [reflexivity|].
    rewrite length_app. lia.
Qed.

Lemma exec_keeps_accounts db c :
  exists new,
    List.map account_identity (accounts (exec db c)) =
    List.map account_identity (accounts db) ++ new /\ (length new <= 1)%nat.
Proof.
  destruct (exec_shape db c)
    as [->|[(number & f & l & ty & cur & init & draws & now & _ & _ & _ & _ & ->)
           |(n & account & ty & amt & nb & d & now & _ & _ & _ & _ & _ & ->)]].
  - exists []. rewrite app_nil_r. split; [reflexivity|simpl; lia].
  - unfold created_rows. simpl. rewrite List.map_app. simpl.
    eexists. split; [reflexivity|simpl; lia].
  - exists []. rewrite app_nil_r. split; [|simpl; lia]. simpl.
    rewrite List.map_map. apply List.map_ext. intros a.
    now destruct (bool_decide (a_account_number a = n)).
Qed.

(** X7.  Accounts are never deleted or renumbered: whatever calls are
    made, the account rows the store had are still there in place with
    the same id, account number, names, type, currency and creation time
    (only balances move), and each call has added at most one account. *)
Theorem accounts_are_kept (cs : list call) (db : Database) :
  exists new,
    List.map account_identity (accounts (exec_all cs db)) =
    List.map account_identity (accounts db) ++ new /\
    (length new <= length cs)%nat.
Proof.
  revert db. induction cs as [|c cs IH]; intros db; simpl.
  - exists []. rewrite app_nil_r. split; [reflexivity|simpl; lia].
  - destruct (IH (exec db c)) as (new2 & H2 & L2).
    destruct (exec_keeps_accounts db c) as (new1 & H1 & L1).
    exists (new1 ++ new2). rewrite H2, H1, app_assoc. split; [reflexivity|].
    rewrite length_app. lia.
Qed.

Lemma other_accounts_untouched_witness :
  (select_account (exec two_accounts_db (Deposit "654321" 100 "" 1004)) "123456" =
     Some sample_account /\
   get_transactions (exec two_accounts_db (Deposit "654321" 100 "" 1004)) "123456" 10 =
     get_transactions two_accounts_db "123456" 10) /\
  (select_account (exec two_accounts_db (Withdraw "123456" 100000 "" 1004)) "123456" =
     Some sample_account /\
   get_transactions (exec two_accounts_db (Withdraw "123456" 100000 "" 1004))
                    "123456" 10 =
     get_transactions two_accounts_db "123456" 10).
Proof.
  assert (C : consistent two_accounts_db)
    by apply reachable_consistent, exec_all_reachable, reachable_empty.
  assert (Hsel : select_account two_accounts_db "123456" = Some sample_account)
    by (vm_compute; reflexivity).
  split.
  - apply (other_accounts_untouched two_accounts_db (Deposit "654321" 100 "" 1004)
             "123456" sample_account 10 C Hsel).
    left. discriminate.
  - apply (other_accounts_untouched two_accounts_db (Withdraw "123456" 100000 "" 1004)
             "123456" sample_account 10 C Hsel).
    right. exists (ValueError "Insufficient funds"). vm_compute. reflexivity.
Defined.

(** ** [str.strip] *)

Lemma rstrip_idempotent s : Str.rstrip (Str.rstrip s) = Str.rstrip s.
Proof.
  induction s as [|c s IH]; [reflexivity|].
  cbn [Str.rstrip]. destruct (Str.rstrip s) as [|c' r] eqn:E.
  - destruct (Str.isspace c) eqn:Hc; [reflexivity|]. cbn [Str.rstrip]. now rewrite Hc.
  - cbn [Str.rstrip]. cbn [Str.rstrip] in IH. now rewrite IH.
Qed.

Lemma lstrip_head s :
  Str.lstrip s = "" \/ exists c r, Str.lstrip s = String c r /\ Str.isspace c = false.
Proof.
  induction s as [|c s IH]; [now left|].
  cbn [Str.lstrip]. destruct (Str.isspace c) eqn:Hc; [exact IH|].
  right. eauto.
Qed.

Lemma rstrip_head c r :
  Str.isspace c = false -> exists r', Str.rstrip (String c r) = String c r'.
Proof.
  intros Hc. cbn [Str.rstrip]. destruct (Str.rstrip r); [|eauto].
  rewrite Hc. eauto.
Qed.

Lemma strip_idempotent s : Str.strip (Str.strip s) = Str.strip s.
Proof.
  unfold Str.strip. destruct (lstrip_head s) as [->|(c & r & -> & Hc)]; [reflexivity|].
  destruct (rstrip_head c r Hc) as [r' Hr]. rewrite Hr.
  cbn [Str.lstrip]. rewrite Hc, <- Hr. apply rstrip_idempotent.
Qed.

(** ** Rows are well formed in every reachable store *)

Lemma ids_upto_snoc n : ids_upto (S n) = ids_upto n ++ [Z.of_nat n + 1].
Proof.
  unfold ids_upto. rewrite List.seq_S, List.map_app. simpl. do 2 f_equal. lia.
Qed.

Lemma last_cons {A} (x : A) l p : List.last (x :: l) p = List.last l x.
Proof.
  revert x p. induction l as [|y l IH]; intros x p; [reflexivity|].
  change (List.last (x :: y :: l) p) with (List.last (y :: l) p).
  now rewrite (IH y p), (IH y x).
Qed.

Lemma chained_snoc previous h t :
  chained previous h ->
  t_balance_after t = List.last (List.map t_balance_after h) previous + signed_amount t ->
  chained previous (h ++ [t]).
Proof.
  revert previous. induction h as [|u h IH]; intros previous Hc Ht.
  - simpl in *. auto.
  - destruct Hc as [Hu Hc]. split; [exact Hu|]. apply IH; [exact Hc|].
    rewrite Ht. f_equal. cbn [List.map]. apply last_cons.
Qed.

Lemma empty_db_well_formed : well_formed empty_db.
Proof. constructor; simpl; try reflexivity; intros ? []. Qed.

Lemma created_rows_well_formed db number first last ty cur init now :
  consistent db -> well_formed db ->
  valid_arguments first last ty cur init ->
  well_formed (created_rows db number first last ty cur init now).
Proof.
  intros C W (Hf & Hl & Hty & Hcur & Hinit).
  set (new := mkAccount (seq_accounts db + 1) number (Str.strip first)
                        (Str.strip last) ty cur init now).
  assert (Hacc : accounts (created_rows db number first last ty cur init now) =
                 accounts db ++ [new]) by reflexivity.
  assert (Hsplit : forall a, In a (accounts db ++ [new]) -> In a (accounts db) \/ a = new).
  { intros a Ha. apply List.in_app_iff in Ha as [Ha|[<-|[]]]; auto. }
  constructor; rewrite ?Hacc.
  - rewrite List.map_app, length_app, (account_ids _ W). simpl.
    rewrite Nat.add_1_r, ids_upto_snoc. now rewrite (account_counter _ W).
  - rewrite length_app. simpl. rewrite (account_counter _ W). lia.
  - unfold created_rows. simpl. destruct (0 <? init); [|apply (transaction_ids _ W)].
    rewrite List.map_app, length_app, (transaction_ids _ W). simpl.
    rewrite Nat.add_1_r, ids_upto_snoc. now rewrite (transaction_counter _ W).
  - unfold created_rows. simpl. destruct (0 <? init); [|apply (transaction_counter _ W)].
    rewrite length_app. simpl. rewrite (transaction_counter _ W). lia.
  - intros t Ht. rewrite List.map_app, List.in_app_iff.
    unfold created_rows in Ht. simpl in Ht.
    assert (Hold : In t (transactions db) ->
                   0 < t_amount t /\
                   (t_transaction_type t = "deposit" \/ t_transaction_type t = "withdrawal") /\
                   0 <= t_balance_after t /\ t_description t <> "" /\
                   (In (t_account_id t) (List.map a_id (accounts db)) \/
                    In (t_account_id t) (List.map a_id [new]))).
    { intros Hin. destruct (transactions_shaped _ W t Hin) as (H1 & H2 & H3 & H4 & H5).
      auto 6. }
    destruct (0 <? init) eqn:E; [|now apply Hold].
    apply List.in_app_iff in Ht as [Ht|[<-|[]]]; [now apply Hold|].
    simpl. repeat split; auto; try lia; discriminate.
  - intros a Ha. apply Hsplit in Ha as [Ha| ->]; [now apply (accounts_shaped _ W)|].
    simpl. rewrite !strip_idempotent. auto 6.
  - intros a Ha. apply Hsplit in Ha as [Ha| ->].
    + rewrite history_created_old by assumption. now apply (histories_chained _ W).
    + unfold new. rewrite history_created_new by assumption.
      destruct (0 <? init); simpl; auto.
Qed.

Lemma movement_well_formed db number account ty amount new_balance description now :
  consistent db -> well_formed db ->
  select_account db number = Some account ->
  0 < amount ->
  (ty = "deposit" /\ new_balance = a_balance account + amount \/
   ty = "withdrawal" /\ new_balance = a_balance account - amount /\
   amount <= a_balance account) ->
  description <> "" ->
  well_formed (insert_transaction (update_balance db new_balance number)
                 (a_id account) ty amount new_balance description now).
Proof.
  intros C W Hsel Hpos Hty Hdesc.
  apply select_account_Some in Hsel as Hacc. destruct Hacc as [Hin Hnum].
  pose proof (non_negative _ C account Hin) as Hbal.
  pose proof (update_balance_ids db new_balance number) as Hids. simpl in Hids.
  assert (Hlen : length (accounts (update_balance db new_balance number)) =
                 length (accounts db)) by (simpl; apply length_map).
  set (t := mkTransaction (seq_transactions db + 1) (a_id account) ty amount
                          new_balance description now).
  assert (Hhist : forall a',
            history (insert_transaction (update_balance db new_balance number)
                       (a_id account) ty amount new_balance description now) a' =
            history db a' ++ (if bool_decide (a_id account = a_id a') then [t] else [])).
  { intros a'. unfold insert_transaction, history. simpl. now rewrite List.filter_app. }
  constructor.
  - simpl. rewrite length_map. simpl in Hids. rewrite Hids. apply (account_ids _ W).
  - simpl. rewrite length_map. apply (account_counter _ W).
  - simpl. rewrite List.map_app, length_app, (transaction_ids _ W). simpl.
    rewrite Nat.add_1_r, ids_upto_snoc. now rewrite (transaction_counter _ W).
  - simpl. rewrite length_app. simpl. rewrite (transaction_counter _ W). lia.
  - intros u Hu. simpl in Hu |- *. rewrite Hids.
    apply List.in_app_iff in Hu as [Hu|[<-|[]]]; [now apply (transactions_shaped _ W)|].
    simpl. split; [exact Hpos|]. split; [destruct Hty as [[-> _]|[-> _]]; auto|].
    split; [destruct Hty as [[_ ->]|[_ [-> ?]]]; lia|]. split; [exact Hdesc|].
    now apply List.in_map.
  - intros a' Ha'. apply update_balance_In in Ha' as [a [Ha [[_ ->]|[_ ->]]]];
      unfold set_balance; cbn [a_first_name a_last_name a_account_type a_currency];
      now apply (accounts_shaped _ W).
  - intros a' Ha'. apply update_balance_In in Ha' as [a [Ha Hcase]].
    assert (Hid : a_id a' = a_id a) by (destruct Hcase as [[_ ->]|[_ ->]]; reflexivity).
    assert (Hsame : history db a' = history db a) by (unfold history; now rewrite Hid).
    rewrite Hhist, Hsame, Hid. destruct (bool_decide (a_id account = a_id a)) eqn:E.
    + apply bool_decide_eq_true in E.
      assert (a = account) as ->
        by (apply (map_key_inj a_id (accounts db)); auto using ids_unique).
      apply chained_snoc; [now apply (histories_chained _ W)|].
      pose proof (running _ C account Hin) as Hrun. unfold latest_balance in Hrun.
      rewrite <- Hrun. unfold signed_amount, t. simpl.
      destruct Hty as [[-> ->]|[-> [-> _]]]; simpl; lia.
    + rewrite app_nil_r. now apply (histories_chained _ W).
Qed.

Lemma exec_well_formed db c :
  consistent db -> well_formed db -> well_formed (exec db c).
Proof.
  intros C W.
  destruct (exec_shape db c)
    as [->|[(number & f & l & ty & cur & init & draws & now & _ & Hv & _ & _ & ->)
           |(n & account & ty & amt & nb & d & now & _ & Hsel & Hpos & Hty & Hd & ->)]].
  - exact W.
  - now apply created_rows_well_formed.
  - now apply movement_well_formed.
Qed.

Lemma reachable_well_formed db : reachable db -> well_formed db.
Proof.
  induction 1 as [|db c R IH]; [apply empty_db_well_formed|].
  apply exec_well_formed; [now apply reachable_consistent|exact IH].
Qed.

(** X8.  Row ids are handed out consecutively from 1 in insertion order
    and never reused: after any history of calls from the empty store the
    accounts carry the ids 1..n and the transactions the ids 1..k, and the
    two counters stand at n and k. *)
Theorem ids_are_consecutive (cs : list call) :
  let db := exec_all cs empty_db in
  List.map a_id (accounts db) = ids_upto (length (accounts db)) /\
  List.map t_id (transactions db) = ids_upto (length (transactions db)) /\
  seq_accounts db = Z.of_nat (length (accounts db)) /\
  seq_transactions db = Z.of_nat (length (transactions db)).
Proof.
  cbv zeta.
  pose proof (reachable_well_formed _ (exec_all_reachable cs _ reachable_empty)) as W.
  repeat split; apply W.
Qed.

(** X9.  Every transaction ever recorded has an amount above zero, is a
    "deposit" or a "withdrawal", has a [balance_after] that is not
    negative, has a description that is not empty, and belongs to an
    account that exists. *)
Theorem transactions_are_well_formed (cs : list call) (t : transaction_row) :
  In t (transactions (exec_all cs empty_db)) ->
  0 < t_amount t /\
  (t_transaction_type t = "deposit" \/ t_transaction_type t = "withdrawal") /\
  0 <= t_balance_after t /\
  t_description t <> "" /\
  exists a, In a (accounts (exec_all cs empty_db)) /\ a_id a = t_account_id t.
Proof.
  intros Hin.
  pose proof (reachable_well_formed _ (exec_all_reachable cs _ reachable_empty)) as W.
  destruct (transactions_shaped _ W t Hin) as (H1 & H2 & H3 & H4 & H5).
  repeat split; auto.
  apply List.in_map_iff in H5 as [a [Ha Hin']]. eauto.
Qed.

Lemma transactions_are_well_formed_witness :
  exists a, In a (accounts two_accounts_db) /\ a_id a = 2.
Proof.
  apply (transactions_are_well_formed two_accounts_calls
           (mkTransaction 3 2 "deposit" 2500 2500 "Initial deposit" 1003)).
  vm_compute. right. right. left. reflexivity.
Defined.

(** X10.  Every stored account has a first and a last name that are not
    empty and carry no whitespace at either end, is of type "checking" or
    "savings", and has a currency code that [get_currency] resolves to the
    entry of that code, so formatting its balance never raises "Unknown
    currency". *)
Theorem accounts_are_well_formed (cs : list call) (a : account_row) :
  In a (accounts (exec_all cs empty_db)) ->
  Str.strip (a_first_name a) = a_first_name a /\ a_first_name a <> "" /\
  Str.strip (a_last_name a) = a_last_name a /\ a_last_name a <> "" /\
  (a_account_type a = "checking" \/ a_account_type a = "savings") /\
  exists cur, get_currency (a_currency a) = Return cur /\ code cur = a_currency a.
Proof.
  intros Hin.
  pose proof (reachable_well_formed _ (exec_all_reachable cs _ reachable_empty)) as W.
  destruct (accounts_shaped _ W a Hin) as (H1 & H2 & H3 & H4 & H5 & [cur Hcur]).
  repeat split; auto. exists cur. unfold get_currency. rewrite Hcur.
  split; [reflexivity|].
  apply CURRENCIES_lookup in Hcur as [[-> ->]|[-> ->]]; reflexivity.
Qed.

Lemma accounts_are_well_formed_witness :
  exists cur, get_currency "BB" = Return cur /\ code cur = "BB".
Proof.
  apply (accounts_are_well_formed two_accounts_calls
           (mkAccount 2 "654321" "Bo" "Ray" "savings" "BB" 2500 1003)).
  vm_compute. right. left. reflexivity.
Defined.

(** X11.  In the history of every account each [balance_after] is the
    [balance_after] of the entry before it (zero for the first entry)
    plus the amount for a deposit, minus the amount for a withdrawal. *)
Theorem histories_are_chained (cs : list call) (a : account_row) :
  In a (accounts (exec_all cs empty_db)) ->
  chained 0 (history (exec_all cs empty_db) a).
Proof.
  apply histories_chained, reachable_well_formed, exec_all_reachable, reachable_empty.
Qed.

Lemma histories_are_chained_witness : chained 0 (history sample_db sample_account).
Proof.
  apply (histories_are_chained sample_calls sample_account).
  vm_compute. left. reflexivity.
Defined.

(** ** Account numbers have six digits *)

Lemma digits_from_length fuel : forall k n,
  (k <= fuel)%nat ->
  10 ^ Z.of_nat k <= n < 10 ^ (Z.of_nat k + 1) ->
  length (Str.digits_from fuel n) = S k.
Proof.
  induction fuel as [|fuel IH]; intros k n Hk Hn.
  - assert (k = 0%nat) as -> by lia. reflexivity.
  - cbn [Str.digits_from]. destruct (n <? 10) eqn:E.
    + destruct k as [|k]; [reflexivity|]. exfalso.
      rewrite Nat2Z.inj_succ, Z.pow_succ_r in Hn by lia.
      assert (0 < 10 ^ Z.of_nat k) by (apply Z.pow_pos_nonneg; lia). lia.
    + destruct k as [|k].
      { exfalso. change (10 ^ (Z.of_nat 0 + 1)) with 10 in Hn. lia. }
      rewrite length_app, Nat.add_1_r. f_equal. apply IH; [lia|].
      rewrite Nat2Z.inj_succ in Hn.
      replace (Z.succ (Z.of_nat k) + 1) with (Z.succ (Z.of_nat k + 1)) in Hn by lia.
      rewrite !Z.pow_succ_r in Hn by lia. split.
      * apply Z.div_le_lower_bound; lia.
      * apply Z.div_lt_upper_bound; lia.
Qed.

Lemma length_string_of_list_ascii l :
  String.length (string_of_list_ascii l) = length l.
Proof. induction l as [|c l IH]; simpl; [reflexivity|now rewrite IH]. Qed.

Lemma of_int_six_digits d : 100000 <= d <= 999999 -> six_digits (Str.of_int d).
Proof.
  intros Hd. unfold six_digits, Str.of_int.
  destruct (d <? 0) eqn:E; [lia|].
  rewrite length_string_of_list_ascii, list_ascii_of_string_of_list_ascii.
  destruct (digits_spec d ltac:(lia)) as (Hv & Hdig & _ & _).
  rewrite Hv, Hdig. split; [|split; [reflexivity|exact Hd]].
  unfold Str.digits. apply (digits_from_length _ 5).
  - assert (H16 : 16 <= Z.log2 d).
    { change 16 with (Z.log2 100000). apply Z.log2_le_mono. lia. }
    apply Nat2Z.inj_le. rewrite Z2Nat.id by lia. simpl. lia.
  - change (10 ^ Z.of_nat 5) with 100000. change (10 ^ (Z.of_nat 5 + 1)) with 1000000. lia.
Qed.

Lemma exec_all_invariant (P : Database -> Prop) (Q : call -> Prop) :
  (forall db c, Q c -> P db -> P (exec db c)) ->
  forall cs db, Forall Q cs -> P db -> P (exec_all cs db).
Proof.
  intros Hstep cs. induction cs as [|c cs IH]; intros db HQ HP; [exact HP|].
  simpl. apply List.Forall_cons_iff in HQ as [Hc Hcs]. apply IH; auto.
Qed.

(** X12.  When every draw is a result of [random.randint(100000, 999999)],
    every account number in the store is a string of exactly six decimal
    digits that reads as a number from 100000 to 999999. *)
Theorem account_numbers_have_six_digits (cs : list call) (a : account_row) :
  Forall draws_in_range cs ->
  In a (accounts (exec_all cs empty_db)) ->
  six_digits (a_account_number a).
Proof.
  intros Hdraws. revert a.
  apply (exec_all_invariant
           (fun db => forall a, In a (accounts db) -> six_digits (a_account_number a))
           draws_in_range); [|exact Hdraws|intros a []].
  intros db c Hc HP a.
  destruct (exec_shape db c)
    as [->|[(number & f & l & ty & cur & init & draws & now & -> & _ & _ & Hd & ->)
           |(n & account & ty & amt & nb & d & now & _ & _ & _ & _ & _ & ->)]].
  - apply HP.
  - unfold created_rows. simpl. rewrite List.in_app_iff. intros [Ha|[<-|[]]]; [now apply HP|].
    simpl. destruct Hd as (d & Hin & ->). apply of_int_six_digits.
    simpl in Hc. now apply (proj1 (List.Forall_forall _ _) Hc).
  - intros Ha. simpl in Ha. apply update_balance_In in Ha as [a0 [Ha0 [[_ ->]|[_ ->]]]];
      unfold set_balance; cbn [a_account_number]; now apply HP.
Qed.

Lemma account_numbers_have_six_digits_witness :
  six_digits "654321".
Proof.
  apply (account_numbers_have_six_digits two_accounts_calls
           (mkAccount 2 "654321" "Bo" "Ray" "savings" "BB" 2500 1003)).
  - repeat constructor; lia.
  - vm_compute. right. left. reflexivity.
Defined.

(** X13.  [str(n)] of a number that is not negative is a string of
    decimal digits that reads back as [n]; so different numbers never
    print alike. *)
Theorem of_int_reads_back (n m : Z) :
  0 <= n -> 0 <= m ->
  decimal (list_ascii_of_string (Str.of_int n)) = n /\
  forallb is_digit (list_ascii_of_string (Str.of_int n)) = true /\
  (Str.of_int n = Str.of_int m -> n = m).
Proof.
  intros Hn Hm.
  assert (Hread : forall k, 0 <= k -> decimal (list_ascii_of_string (Str.of_int k)) = k).
  { intros k Hk. unfold Str.of_int. destruct (k <? 0) eqn:E; [lia|].
    rewrite list_ascii_of_string_of_list_ascii. now apply digits_spec. }
  split; [now apply Hread|]. split.
  - unfold Str.of_int. destruct (n <? 0) eqn:E; [lia|].
    rewrite list_ascii_of_string_of_list_ascii. now apply digits_spec.
  - intros Heq. rewrite <- (Hread n Hn), <- (Hread m Hm). now rewrite Heq.
Qed.

Lemma of_int_reads_back_witness :
  decimal (list_ascii_of_string (Str.of_int 654321)) = 654321.
Proof.
  apply (of_int_reads_back 654321 0); lia.
Defined.

(** ** Ordering rows *)

Section OrderBy.

Context {A : Type} (later : A -> A -> bool).

Lemma insert_by_perm x l : Permutation (insert_by later x l) (x :: l).
Proof.
  induction l as [|y r IH]; simpl; [reflexivity|].
  destruct (later x y); [|reflexivity].
  rewrite IH. apply perm_swap.
Qed.

Lemma order_by_perm l : Permutation (order_by later l) l.
Proof.
  induction l as [|x r IH]; simpl; [reflexivity|].
  rewrite insert_by_perm. now apply perm_skip.
Qed.

Hypothesis later_asym : forall x y, later x y = true -> later y x = false.

Lemma insert_by_sorted x l :
  Sorted (fun u v => later u v = false) l ->
  Sorted (fun u v => later u v = false) (insert_by later x l).
Proof.
  induction 1 as [|y r Hr IH Hy]; simpl; [repeat constructor|].
  destruct (later x y) eqn:E.
  - constructor; [exact IH|].
    destruct r as [|z r]; simpl.
    + constructor. now apply later_asym.
    + destruct (later x z); constructor.
      * now inversion Hy.
      * now apply later_asym.
  - constructor; [now constructor|now constructor].
Qed.

Lemma order_by_sorted l : Sorted (fun u v => later u v = false) (order_by later l).
Proof.
  induction l as [|x r IH]; simpl; [constructor|now apply insert_by_sorted].
Qed.

End OrderBy.

Lemma Sorted_firstn {A} (R : A -> A -> Prop) n l : Sorted R l -> Sorted R (firstn n l).
Proof.
  revert l. induction n as [|n IH]; intros l Hs; [constructor|].
  destruct Hs as [|x l Hl Hx]; [constructor|]. simpl. constructor; [now apply IH|].
  destruct Hx; [destruct n; constructor|]. destruct n; constructor. assumption.
Qed.

Lemma Sorted_impl {A} (R R' : A -> A -> Prop) l :
  (forall x y, R x y -> R' x y) -> Sorted R l -> Sorted R' l.
Proof.
  intros H. induction 1 as [|x l Hl IH Hx]; constructor; [exact IH|].
  destruct Hx; constructor. now apply H.
Qed.

Lemma order_by_created_at_desc_order_by l :
  order_by_created_at_desc l =
  order_by (fun t u => t_created_at t <? t_created_at u) l.
Proof.
  induction l as [|t r IH]; simpl; [reflexivity|]. rewrite IH.
  generalize (order_by (fun t0 u => t_created_at t0 <? t_created_at u) r). intros l.
  induction l as [|u l IHl]; simpl; [reflexivity|]. now rewrite IHl.
Qed.

(** ** Listing transactions, in general *)

Lemma joined_unknown db number :
  select_account db number = None -> joined db number = [].
Proof.
  intros Hnone. unfold joined.
  induction (transactions db) as [|t l IH]; simpl; [reflexivity|].
  replace (existsb _ (accounts db)) with false; [exact IH|].
  symmetry. apply not_true_is_false. intros Hex.
  apply existsb_exists in Hex as [a [Ha Hp]]. apply andb_true_iff in Hp as [_ Hn].
  apply bool_decide_eq_true in Hn. now apply (select_account_None db number a Hnone).
Qed.

Lemma joined_history db number a :
  consistent db -> select_account db number = Some a ->
  joined db number = history db a.
Proof.
  intros C Hsel. apply select_account_Some in Hsel as [Hin Hnum].
  unfold joined, history. apply filter_ext_in. intros t _.
  apply eq_true_iff_eq. rewrite bool_decide_eq_true. split.
  - intros Hex. apply existsb_exists in Hex as [a0 [Ha0 Hp]].
    apply andb_true_iff in Hp as [Hid Hn].
    apply bool_decide_eq_true in Hid. apply bool_decide_eq_true in Hn.
    assert (a0 = a) as -> ; [|exact Hid].
    apply (map_key_inj a_account_number (accounts db)); auto using numbers_unique.
    congruence.
  - intros Hid. apply existsb_exists. exists a. split; [exact Hin|].
    apply andb_true_iff. split; now apply bool_decide_eq_true.
Qed.

Lemma In_firstn {A} (x : A) n l : In x (firstn n l) -> In x l.
Proof.
  intros Hin. rewrite <- (firstn_skipn n l). apply List.in_app_iff. now left.
Qed.

Lemma length_insert_desc t l : length (insert_desc t l) = S (length l).
Proof.
  induction l as [|u r IH]; simpl; [reflexivity|].
  destruct (t_created_at t <? t_created_at u); simpl; [now rewrite IH|reflexivity].
Qed.

Lemma length_order_by_created_at_desc l :
  length (order_by_created_at_desc l) = length l.
Proof.
  induction l as [|t r IH]; simpl; [reflexivity|]. now rewrite length_insert_desc, IH.
Qed.

Lemma int64_outcome db number limit :
  get_transactions_outcome db number limit =
  if int64 limit
  then Return (get_transactions db number limit)
  else Raise (OverflowError "Python int too large to convert to SQLite INTEGER").
Proof. reflexivity. Qed.

(** X14.  For an account number that no account carries,
    [get_transactions] returns the empty list for every limit that fits
    a signed 64-bit integer, whatever the log holds; for any other limit
    the call raises [OverflowError], as it does for every account. *)
Theorem get_transactions_unknown_account (db : Database) (number : string) (limit : Z) :
  get_account db number = None ->
  get_transactions_outcome db number limit =
  if (- 2 ^ 63 <=? limit) && (limit <? 2 ^ 63)
  then Return []
  else Raise (OverflowError "Python int too large to convert to SQLite INTEGER").
Proof.
  intros Hnone. apply get_account_None in Hnone. rewrite int64_outcome.
  unfold int64. destruct ((- 2 ^ 63 <=? limit) && (limit <? 2 ^ 63)); [|reflexivity].
  f_equal.
  unfold get_transactions, select_transactions. rewrite (joined_unknown db number Hnone).
  simpl. unfold sql_limit. destruct (limit <? 0); [reflexivity|].
  now rewrite firstn_nil.
Qed.

Lemma get_transactions_unknown_account_witness :
  get_transactions_outcome sample_db "000000" 10 = Return [] /\
  get_transactions_outcome sample_db "000000" (2 ^ 63) =
    Raise (OverflowError "Python int too large to convert to SQLite INTEGER").
Proof.
  split.
  - apply (get_transactions_unknown_account sample_db "000000" 10).
    vm_compute. reflexivity.
  - apply (get_transactions_unknown_account sample_db "000000" (2 ^ 63)).
    vm_compute. reflexivity.
Defined.

(** X15.  In a consistent store, [get_transactions] on an existing
    account with a limit that fits a signed 64-bit integer returns as
    many entries as the account has transactions when the limit is
    negative, and otherwise the smaller of the limit and that number; a
    limit of zero gives the empty list.  With any other limit the call
    raises [OverflowError] and returns nothing. *)
Theorem get_transactions_length (db : Database) (number : string) (a : account_row)
    (limit : Z) :
  consistent db ->
  select_account db number = Some a ->
  match get_transactions_outcome db number limit with
  | Return listed =>
      - 2 ^ 63 <= limit < 2 ^ 63 /\
      length listed =
      (if limit <? 0 then length (history db a)
       else Nat.min (Z.to_nat limit) (length (history db a)))
  | Raise e =>
      ~ (- 2 ^ 63 <= limit < 2 ^ 63) /\
      e = OverflowError "Python int too large to convert to SQLite INTEGER"
  | Spinning => False
  end.
Proof.
  intros C Hsel. rewrite int64_outcome. unfold int64.
  destruct (- 2 ^ 63 <=? limit) eqn:Hlo; destruct (limit <? 2 ^ 63) eqn:Hhi; simpl;
    try (split; [lia|reflexivity]).
  split; [lia|].
  unfold get_transactions, select_transactions, sql_limit.
  rewrite length_map, (joined_history db number a C Hsel).
  destruct (limit <? 0).
  - apply length_order_by_created_at_desc.
  - now rewrite length_firstn, length_order_by_created_at_desc.
Qed.

Lemma sample_db_consistent : consistent sample_db.
Proof. apply reachable_consistent, exec_all_reachable, reachable_empty. Qed.

Lemma get_transactions_length_witness :
  (exists listed, get_transactions_outcome sample_db "123456" 1 = Return listed /\
                  length listed = 1%nat) /\
  (exists listed, get_transactions_outcome sample_db "123456" (-1) = Return listed /\
                  length listed = 2%nat) /\
  get_transactions_outcome sample_db "123456" (- 2 ^ 63 - 1) =
    Raise (OverflowError "Python int too large to convert to SQLite INTEGER").
Proof.
  assert (Hsel : select_account sample_db "123456" = Some sample_account)
    by (vm_compute; reflexivity).
  pose proof (get_transactions_length sample_db "123456" sample_account 1
                sample_db_consistent Hsel) as H1.
  pose proof (get_transactions_length sample_db "123456" sample_account (-1)
                sample_db_consistent Hsel) as H2.
  pose proof (get_transactions_length sample_db "123456" sample_account (- 2 ^ 63 - 1)
                sample_db_consistent Hsel) as H3.
  split; [|split].
  - destruct (get_transactions_outcome sample_db "123456" 1) as [listed|e|] eqn:E;
      [|discriminate E|discriminate E].
    exists listed. split; [reflexivity|]. exact (proj2 H1).
  - destruct (get_transactions_outcome sample_db "123456" (-1)) as [listed|e|] eqn:E;
      [|discriminate E|discriminate E].
    exists listed. split; [reflexivity|]. exact (proj2 H2).
  - destruct (get_transactions_outcome sample_db "123456" (- 2 ^ 63 - 1))
      as [listed|e|] eqn:E; [discriminate E| |discriminate E].
    now rewrite (proj2 H3).
Defined.

(** X16.  In a consistent store, the rows that [get_transactions] lists
    for an existing account are in order of [created_at], latest second
    first; each of them is a transaction of that account; and when the
    limit is negative or not below the number of the account's
    transactions, they are all of the account's transactions, each once. *)
Theorem get_transactions_sorted (db : Database) (number : string) (a : account_row)
    (limit : Z) :
  consistent db ->
  select_account db number = Some a ->
  get_transactions db number limit =
    List.map transaction_dict (select_transactions db number limit) /\
  Sorted (fun t u => t_created_at u <= t_created_at t)
         (select_transactions db number limit) /\
  (forall t, In t (select_transactions db number limit) -> In t (history db a)) /\
  (limit < 0 \/ Z.of_nat (length (history db a)) <= limit ->
   Permutation (select_transactions db number limit) (history db a)).
Proof.
  intros C Hsel. split; [reflexivity|].
  unfold select_transactions. rewrite (joined_history db number a C Hsel).
  rewrite order_by_created_at_desc_order_by.
  set (later := fun t u : transaction_row => t_created_at t <? t_created_at u).
  assert (Hsorted : Sorted (fun t u => t_created_at u <= t_created_at t)
                           (order_by later (history db a))).
  { apply (Sorted_impl (fun u v => later u v = false)).
    - unfold later. intros x y H. lia.
    - apply order_by_sorted. unfold later. intros x y H. lia. }
  assert (Hperm : Permutation (order_by later (history db a)) (history db a))
    by apply order_by_perm.
  unfold sql_limit. split; [|split].
  - destruct (limit <? 0); [exact Hsorted|now apply Sorted_firstn].
  - intros t Ht. apply (Permutation_in _ Hperm).
    destruct (limit <? 0); [exact Ht|]. now apply (In_firstn t (Z.to_nat limit)).
  - intros Hall. destruct (limit <? 0) eqn:E; [exact Hperm|].
    rewrite firstn_all2; [exact Hperm|].
    rewrite (Permutation_length Hperm). lia.
Qed.

Lemma get_transactions_sorted_witness :
  Sorted (fun t u => t_created_at u <= t_created_at t)
         (select_transactions sample_db "123456" 10).
Proof.
  assert (Hsel : select_account sample_db "123456" = Some sample_account)
    by (vm_compute; reflexivity).
  exact (proj1 (proj2 (get_transactions_sorted sample_db "123456" sample_account 10
                         sample_db_consistent Hsel))).
Defined.

(** X17.  In a consistent store, when each transaction of an account was
    recorded in a later second than the one before it, [get_transactions]
    lists them newest first: it returns the account's history reversed,
    cut at the limit. *)
Theorem get_transactions_newest_first (db : Database) (number : string)
    (a : account_row) (limit : Z) :
  consistent db ->
  select_account db number = Some a ->
  StronglySorted (fun t u => t_created_at t < t_created_at u) (history db a) ->
  get_transactions db number limit =
  List.map transaction_dict (sql_limit limit (rev (history db a))).
Proof.
  intros C Hsel Hinc. unfold get_transactions, select_transactions.
  rewrite (joined_history db number a C Hsel).
  now rewrite order_by_created_at_desc_increasing.
Qed.

Lemma get_transactions_newest_first_witness :
  get_transactions sample_db "123456" 1 =
  List.map transaction_dict (sql_limit 1 (rev (history sample_db sample_account))).
Proof.
  apply get_transactions_newest_first.
  - exact sample_db_consistent.
  - vm_compute. reflexivity.
  - vm_compute. repeat constructor.
Defined.

(** ** Listing accounts *)

Lemma name_later_asym a b : name_later a b = true -> name_later b a = false.
Proof.
  unfold name_later, String.ltb.
  rewrite (String.compare_antisym (a_last_name a) (a_last_name b)).
  rewrite (String.compare_antisym (a_first_name a) (a_first_name b)).
  destruct (String.compare (a_last_name b) (a_last_name a)); simpl; try congruence.
  destruct (String.compare (a_first_name b) (a_first_name a)); simpl; congruence.
Qed.

Lemma name_later_false a b : name_later a b = false -> name_le a b.
Proof.
  unfold name_later, name_le, String.ltb, String.leb.
  rewrite (String.compare_antisym (a_last_name a) (a_last_name b)).
  rewrite (String.compare_antisym (a_first_name a) (a_first_name b)).
  destruct (String.compare (a_last_name b) (a_last_name a)) eqn:El; simpl;
    [|discriminate|now left].
  apply String.compare_eq_iff in El. intros Hf. right. split; [now symmetry|].
  destruct (String.compare (a_first_name b) (a_first_name a)); simpl; congruence.
Qed.

(** X18.  [list_accounts] returns every account of the store exactly
    once, in ascending order of last name and, within a last name, of
    first name (character codes compared, as the BINARY collation does). *)
Theorem list_accounts_sorted (db : Database) :
  exists rows,
    list_accounts db = List.map account_dict rows /\
    Permutation rows (accounts db) /\
    Sorted name_le rows /\
    length (list_accounts db) = length (accounts db).
Proof.
  exists (order_by name_later (accounts db)).
  split; [reflexivity|]. split; [apply order_by_perm|]. split.
  - apply (Sorted_impl (fun u v => name_later u v = false)); [apply name_later_false|].
    apply order_by_sorted, name_later_asym.
  - unfold list_accounts. rewrite length_map.
    apply Permutation_length, order_by_perm.
Qed.

(** ** The currency registry, continued *)

Lemma CURRENCIES_items : CURRENCIES = list_to_map CURRENCY_ITEMS.
Proof. reflexivity. Qed.

(** X19.  [is_valid_currency] says exactly whether [get_currency]
    returns; an unknown code raises "Unknown currency: <code>"; the entry
    returned for a code carries that code and is one of
    [get_available_currencies]; and every available currency is what
    [get_currency] returns for its own code. *)
Theorem currency_registry (c : string) :
  (is_valid_currency c = true <-> exists cur, get_currency c = Return cur) /\
  (is_valid_currency c = false ->
   get_currency c = Raise (ValueError ("Unknown currency: " +:+ c))) /\
  (forall cur, get_currency c = Return cur ->
               code cur = c /\ In cur get_available_currencies) /\
  (forall cur, In cur get_available_currencies -> get_currency (code cur) = Return cur).
Proof.
  unfold is_valid_currency, get_currency. split; [|split; [|split]].
  - rewrite bool_decide_eq_true. split.
    + intros [cur Hcur]. rewrite Hcur. eauto.
    + intros [cur Hcur]. destruct (CURRENCIES !! c); [eauto|discriminate].
  - rewrite bool_decide_eq_false. intros Hno.
    destruct (CURRENCIES !! c) eqn:E; [|reflexivity]. exfalso. apply Hno. eauto.
  - intros cur Hcur. destruct (CURRENCIES !! c) as [cur'|] eqn:E; [|discriminate].
    injection Hcur as ->.
    apply CURRENCIES_lookup in E as [[-> ->]|[-> ->]]; simpl; auto.
  - intros cur [<-|[<-|[]]]; reflexivity.
Qed.

(** ** [str.strip], continued *)

Lemma append_cons c x y : String.append (String c x) y = String c (String.append x y).
Proof. reflexivity. Qed.

Lemma append_empty y : String.append "" y = y.
Proof. reflexivity. Qed.

Lemma lstrip_split s :
  exists pre, s = String.append pre (Str.lstrip s) /\ all_space pre = true.
Proof.
  induction s as [|c s IH]; [exists ""; now split|].
  cbn [Str.lstrip]. destruct (Str.isspace c) eqn:Hc.
  - destruct IH as [pre [Hs Hpre]]. exists (String c pre). split.
    + rewrite append_cons. now f_equal.
    + cbn [all_space]. now rewrite Hc, Hpre.
  - exists "". now split.
Qed.

Lemma rstrip_split s :
  exists post, s = String.append (Str.rstrip s) post /\ all_space post = true.
Proof.
  induction s as [|c s IH]; [exists ""; now split|].
  destruct IH as [post [Hs Hpost]]. cbn [Str.rstrip].
  destruct (Str.rstrip s) as [|c' r] eqn:E.
  - rewrite append_empty in Hs. subst post. destruct (Str.isspace c) eqn:Hc.
    + exists (String c s). split; [reflexivity|]. cbn [all_space]. now rewrite Hc, Hpost.
    + exists s. now split.
  - exists post. split; [|exact Hpost]. rewrite !append_cons. rewrite append_cons in Hs.
    now f_equal.
Qed.

Lemma rstrip_last s c :
  String.get (String.length (Str.rstrip s) - 1) (Str.rstrip s) = Some c ->
  Str.isspace c = false.
Proof.
  induction s as [|d s IH]; [discriminate|].
  cbn [Str.rstrip]. destruct (Str.rstrip s) as [|c' r] eqn:E.
  - destruct (Str.isspace d) eqn:Hd; [discriminate|]. simpl. now intros [= <-].
  - intros H. apply IH. cbn [String.length] in *.
    rewrite Nat.sub_1_r in *. cbn [Nat.pred] in *. exact H.
Qed.

(** X20.  [strip] removes whitespace and nothing else: the argument is a
    run of whitespace, then the result, then a run of whitespace; the
    result neither begins nor ends with a whitespace character; and
    stripping twice is stripping once. *)
Theorem strip_spec (s : string) :
  (exists pre post,
     s = String.append pre (String.append (Str.strip s) post) /\
     all_space pre = true /\ all_space post = true) /\
  (forall c, String.get 0 (Str.strip s) = Some c -> Str.isspace c = false) /\
  (forall c, String.get (String.length (Str.strip s) - 1) (Str.strip s) = Some c ->
             Str.isspace c = false) /\
  Str.strip (Str.strip s) = Str.strip s.
Proof.
  split; [|split; [|split]].
  - destruct (lstrip_split s) as [pre [Hs Hpre]].
    destruct (rstrip_split (Str.lstrip s)) as [post [Hl Hpost]].
    exists pre, post. unfold Str.strip. now rewrite <- Hl.
  - intros c. unfold Str.strip.
    destruct (lstrip_head s) as [->|(d & r & -> & Hd)]; [discriminate|].
    destruct (rstrip_head d r Hd) as [r' ->]. simpl. now intros [= <-].
  - intros c. apply rstrip_last.
  - apply strip_idempotent.
Qed.

(** ** The layout helpers of the printer *)

Lemma length_append x y :
  String.length (String.append x y) = (String.length x + String.length y)%nat.
Proof.
  induction x as [|c x IH]; [reflexivity|].
  rewrite append_cons. cbn [String.length]. now rewrite IH.
Qed.

Lemma append_empty_r x : String.append x "" = x.
Proof. induction x as [|c x IH]; [reflexivity|]. rewrite append_cons. now f_equal. Qed.

Lemma length_concat_repeat s k :
  String.length (String.concat "" (repeat s k)) = (k * String.length s)%nat.
Proof.
  induction k as [|k IH]; [reflexivity|].
  cbn [repeat]. destruct k as [|k].
  - cbn [repeat String.concat]. lia.
  - change (String.concat "" (s :: repeat s (S k)))
      with (String.append s (String.append "" (String.concat "" (repeat s (S k))))).
    rewrite append_empty, length_append, IH. lia.
Qed.

Lemma length_times s n :
  Z.of_nat (String.length (Printer.times s n)) =
  Z.of_nat (String.length s) * Z.max 0 n.
Proof.
  unfold Printer.times. rewrite length_concat_repeat.
  rewrite Nat2Z.inj_mul.
  assert (Hn : Z.of_nat (Z.to_nat n) = Z.max 0 n) by lia. rewrite Hn. apply Z.mul_comm.
Qed.

Lemma land_1 x : Z.land x 1 = x mod 2.
Proof. change 1 with (Z.ones 1). now rewrite Z.land_ones by lia. Qed.

Lemma center_bit marg width :
  let bit := Z.land (Z.land marg width) 1 in
  0 <= bit <= marg mod 2.
Proof.
  cbv zeta. rewrite <- Z.land_assoc, (Z.land_comm width 1), Z.land_assoc, land_1.
  pose proof (Z.mod_pos_bound marg 2 ltac:(lia)) as Hm.
  assert (Hcase : marg mod 2 = 0 \/ marg mod 2 = 1) by lia.
  destruct Hcase as [->| ->].
  - rewrite Z.land_0_l. lia.
  - rewrite Z.land_comm, land_1. pose proof (Z.mod_pos_bound width 2 ltac:(lia)). lia.
Qed.

(** X22.  [_center] never cuts the text: the result is the text between
    two runs of spaces whose lengths differ by at most one and add up to
    the width less the text's length (to nothing when the text is at least
    as long as the width), so its length is the larger of the two.
    [_line] repeats its argument [width] times, and gives the empty string
    for a width of zero or less. *)
Theorem layout_helpers (text char : string) (width : Z) :
  (exists left right,
     Printer._center text width =
       Printer.times " " left +:+ text +:+ Printer.times " " right /\
     0 <= left /\ 0 <= right /\ -1 <= left - right <= 1 /\
     left + right = Z.max 0 (width - Z.of_nat (String.length text))) /\
  Z.of_nat (String.length (Printer._center text width)) =
    Z.max (Z.of_nat (String.length text)) width /\
  Z.of_nat (String.length (Printer._line char width)) =
    Z.of_nat (String.length char) * Z.max 0 width.
Proof.
  set (len := Z.of_nat (String.length text)).
  assert (Hshape : exists left right,
     Printer._center text width =
       Printer.times " " left +:+ text +:+ Printer.times " " right /\
     0 <= left /\ 0 <= right /\ -1 <= left - right <= 1 /\
     left + right = Z.max 0 (width - len)).
  { unfold Printer._center. fold len. destruct (width <=? len) eqn:E.
    - exists 0, 0. split; [|lia].
      change (Printer.times " " 0) with "". now rewrite append_empty, append_empty_r.
    - pose proof (center_bit (width - len) width) as Hbit. cbv zeta in Hbit.
      pose proof (Z.div_mod (width - len) 2 ltac:(lia)) as Hdm.
      pose proof (Z.mod_pos_bound (width - len) 2 ltac:(lia)) as Hm.
      eexists. eexists. split; [reflexivity|]. lia. }
  split; [exact Hshape|]. split; [|apply length_times].
  destruct Hshape as (left & right & -> & Hl & Hr & _ & Hsum).
  rewrite !length_append, !Nat2Z.inj_add, !length_times. fold len.
  change (Z.of_nat (String.length " ")) with 1. lia.
Qed.

(** ** What a movement returns *)

(** X23.  The dict that a deposit or a withdrawal returns names the
    account number it was called with and, as [new_balance], the balance
    that the store now holds for that account; it has no "transaction_id"
    entry, so [result.get("transaction_id")] in the caller is [None]. *)
Theorem movement_result (c : call) (number : string) (db db' : Database)
    (result : gmap string value) :
  target c = Some number ->
  run c db = (Return result, db') ->
  result !! "account_number" = Some (VStr number) /\
  result !! "transaction_id" = None /\
  exists account,
    select_account db' number = Some account /\
    result !! "new_balance" = Some (VAmount (a_balance account)).
Proof.
  intros Ht Hrun. destruct c as [f l ty cur init draws now|n amt d now|n amt d now];
    [discriminate| |]; injection Ht as ->; simpl in Hrun.
  - unfold deposit in Hrun. destruct (amt <=? 0); [discriminate|].
    destruct (select_account db number) as [a|] eqn:S; [|discriminate].
    injection Hrun as <- <-. split; [reflexivity|]. split; [reflexivity|].
    exists (set_balance (a_balance a + amt) a). split; [|reflexivity].
    rewrite select_account_insert_transaction. now apply select_account_update_balance.
  - unfold withdraw in Hrun. destruct (amt <=? 0); [discriminate|].
    destruct (select_account db number) as [a|] eqn:S; [|discriminate].
    destruct (a_balance a <? amt); [discriminate|].
    injection Hrun as <- <-. split; [reflexivity|]. split; [reflexivity|].
    exists (set_balance (a_balance a - amt) a). split; [|reflexivity].
    rewrite select_account_insert_transaction. now apply select_account_update_balance.
Qed.

Lemma movement_result_witness :
  movement_dict "123456" "deposit" 2500 9500 !! "transaction_id" = None.
Proof.
  refine (proj1 (proj2 (movement_result (Deposit "123456" 2500 "" 1003) "123456"
                          sample_db _ _ eq_refl _))).
  vm_compute. reflexivity.
Defined.

(** ** The account number loop *)

(** X24.  [generate_account_number] never raises and never returns a
    number that an account carries: it returns the number of the first
    draw that is free, and it is still looping, with the draws used up,
    exactly when every draw hit an existing account. *)
Theorem generate_account_number_spec (db : Database) (draws : list Z) :
  (forall e, generate_account_number db draws <> Raise e) /\
  (forall number,
     generate_account_number db draws = Return number <->
     exists taken d rest,
       draws = taken ++ d :: rest /\ number = Str.of_int d /\
       select_account db number = None /\
       Forall (fun x => select_account db (Str.of_int x) <> None) taken) /\
  (generate_account_number db draws = Spinning <->
   Forall (fun x => select_account db (Str.of_int x) <> None) draws).
Proof.
  split; [intros e; apply generate_account_number_no_raise|]. split.
  - intros number. split.
    + induction draws as [|d rest IH]; simpl; [discriminate|].
      destruct (select_account db (Str.of_int d)) eqn:E.
      * intros H. destruct (IH H) as (taken & d' & rest' & -> & Hn & Hfree & Htaken).
        exists (d :: taken), d', rest'. repeat split; auto.
        constructor; [congruence|exact Htaken].
      * intros [= <-]. exists [], d, rest. repeat split; auto.
    + intros (taken & d & rest & -> & -> & Hfree & Htaken).
      now apply generate_account_number_skips.
  - induction draws as [|d rest IH]; simpl.
    + split; [constructor|reflexivity].
    + destruct (select_account db (Str.of_int d)) eqn:E.
      * rewrite IH. split; [intros H; constructor; [congruence|exact H]|].
        intros H. now apply List.Forall_cons_iff in H.
      * split; [discriminate|]. intros H. apply List.Forall_cons_iff in H as [H _].
        congruence.
Qed.

(** ** Looking accounts up *)

(** X25.  In a consistent store every account is found under its own
    number: [get_account] returns the dict of exactly that row, with its
    eight columns; and [get_account] returns [None] exactly for the
    numbers that no account carries. *)
Theorem get_account_finds_every_account (db : Database) (a : account_row)
    (number : string) :
  consistent db ->
  In a (accounts db) ->
  get_account db (a_account_number a) = Some (account_dict a) /\
  account_dict a !! "account_number" = Some (VStr (a_account_number a)) /\
  account_dict a !! "balance" = Some (VAmount (a_balance a)) /\
  account_dict a !! "created_at" = Some (VTime (a_created_at a)) /\
  (get_account db number = None <->
   forall b, In b (accounts db) -> a_account_number b <> number).
Proof.
  intros C Hin. split; [|split; [reflexivity|split; [reflexivity|split; [reflexivity|]]]].
  - unfold get_account.
    now rewrite (select_account_unique db _ a (numbers_unique _ C) Hin eq_refl).
  - rewrite get_account_None. split.
    + intros Hnone b Hb. now apply (select_account_None db number b).
    + intros Hall. destruct (select_account db number) as [b|] eqn:E; [|reflexivity].
      apply select_account_Some in E as [Hb Hn]. now destruct (Hall b Hb).
Qed.

Lemma get_account_finds_every_account_witness :
  get_account two_accounts_db "654321" =
  Some (account_dict (mkAccount 2 "654321" "Bo" "Ray" "savings" "BB" 2500 1003)).
Proof.
  refine (proj1 (get_account_finds_every_account two_accounts_db
                   (mkAccount 2 "654321" "Bo" "Ray" "savings" "BB" 2500 1003) "" _ _)).
  - apply reachable_consistent, exec_all_reachable, reachable_empty.
  - vm_compute. right. left. reflexivity.
Defined.

(** ** A new account's listing *)

(** X26.  Right after a successful [create_account] on a consistent
    store, [get_transactions] for the new number lists the one "Initial
    deposit" entry when the initial deposit was above zero (unless the
    limit is zero), and nothing when it was zero. *)
Theorem new_account_listing (first last ty cur : string) (init : Z)
    (taken : list Z) (d : Z) (rest : list Z) (now limit : Z) (db : Database) :
  consistent db ->
  valid_arguments first last ty cur init ->
  Forall (fun x => select_account db (Str.of_int x) <> None) taken ->
  select_account db (Str.of_int d) = None ->
  let db' := snd (create_account first last ty cur init (taken ++ d :: rest) now db) in
  get_transactions db' (Str.of_int d) limit =
  if 0 <? init
  then sql_limit limit
         [transaction_dict
            (mkTransaction (seq_transactions db + 1) (seq_accounts db + 1) "deposit"
                           init init "Initial deposit" now)]
  else [].
Proof.
  intros C Hv Htaken Hfree. cbv zeta.
  rewrite (create_account_returns _ _ _ _ _ _ _ rest now db Hv Htaken Hfree). simpl snd.
  assert (C' : consistent (created_rows db (Str.of_int d) first last ty cur init now)).
  { apply created_rows_consistent; auto. apply Hv. }
  unfold get_transactions, select_transactions.
  rewrite (joined_history _ _ _ C' (select_account_created db _ first last ty cur init
                                      now Hfree)).
  rewrite history_created_new by exact C.
  destruct (0 <? init); simpl.
  - unfold sql_limit. destruct (limit <? 0); [reflexivity|].
    destruct (Z.to_nat limit) as [|n]; [reflexivity|].
    cbn [firstn List.map]. now rewrite !firstn_nil.
  - unfold sql_limit. destruct (limit <? 0); [reflexivity|]. now rewrite firstn_nil.
Qed.

Lemma new_account_listing_witness :
  get_transactions two_accounts_db "654321" 10 =
  [transaction_dict (mkTransaction 3 2 "deposit" 2500 2500 "Initial deposit" 1003)].
Proof.
  assert (Hv : valid_arguments " Bo " "Ray" "savings" "BB" 2500).
  { unfold valid_arguments. repeat split; try discriminate; try lia; auto. }
  assert (Htaken : Forall (fun x => select_account sample_db (Str.of_int x) <> None)
                          [123456]).
  { constructor; [vm_compute; discriminate|constructor]. }
  assert (Hfree : select_account sample_db (Str.of_int 654321) = None)
    by (vm_compute; reflexivity).
  exact (new_account_listing " Bo " "Ray" "savings" "BB" 2500 [123456] 654321 [] 1003 10
           sample_db sample_db_consistent Hv Htaken Hfree).
Defined.

(** * The engine over binary64 amounts *)

Module Ledger64.

Import F64.

(** ** Binary64 arithmetic *)

Lemma Prim2SF_zero : Prim2SF 0%float = S754_zero false.
Proof. reflexivity. Qed.

Lemma is_nan_spec x : is_nan x = true <-> Prim2SF x = S754_nan.
Proof.
  unfold is_nan. rewrite FloatAxioms.eqb_spec. unfold SFeqb, SFcompare.
  destruct (Prim2SF x) as [s|s| |s m e]; try destruct s; simpl;
    rewrite ?Z.compare_refl, ?Pos.compare_cont_refl; simpl; intuition congruence.
Qed.

Lemma is_nan_false x : is_nan x = false <-> Prim2SF x <> S754_nan.
Proof.
  rewrite <- is_nan_spec. destruct (is_nan x); intuition congruence.
Qed.


Lemma ltb_zero_spec x : (0 <? x)%float = true <-> above_zero (Prim2SF x).
Proof.
  rewrite FloatAxioms.ltb_spec, Prim2SF_zero. unfold SFltb, SFcompare.
  destruct (Prim2SF x) as [s|s| |s m e]; try destruct s; simpl; intuition congruence.
Qed.

(** The guard [amount <= 0] lets through the positive floats and NaN. *)
Lemma leb_zero_false x :
  (x <=? 0)%float = false <-> (above_zero (Prim2SF x) \/ Prim2SF x = S754_nan).
Proof.
  rewrite FloatAxioms.leb_spec, Prim2SF_zero. unfold SFleb, SFcompare.
  destruct (Prim2SF x) as [s|s| |s m e]; try destruct s; simpl; intuition congruence.
Qed.

Lemma above_zero_not_negative x : above_zero x -> not_negative x.
Proof. destruct x as [s|s| |s m e]; try destruct s; simpl; tauto. Qed.

Lemma is_zero_spec x : is_zero x = true <-> exists s, Prim2SF x = S754_zero s.
Proof.
  unfold is_zero. rewrite FloatAxioms.eqb_spec. change (Prim2SF zero) with (S754_zero false).
  unfold SFeqb, SFcompare.
  destruct (Prim2SF x) as [s|s| |s m e]; try destruct s; simpl; split;
    try discriminate; eauto; intros [s' H]; discriminate.
Qed.

(** A [REAL] column gives back every float that is not minus zero. *)
Lemma stored_not_negative x : not_negative (Prim2SF x) -> stored x = x.
Proof.
  intros H. unfold stored. destruct (is_zero x) eqn:E; [|reflexivity].
  apply is_zero_spec in E as [s E]. rewrite E in H. simpl in H. subst s.
  symmetry. apply Prim2SF_inj. now rewrite E.
Qed.

(** What the column keeps of a float that passed [x < 0] and is not NaN. *)
Lemma stored_checked x :
  (x <? 0)%float = false -> is_nan x = false -> not_negative (Prim2SF (stored x)).
Proof.
  intros Hlt Hnan. unfold stored. destruct (is_zero x) eqn:E; [reflexivity|].
  apply is_nan_false in Hnan.
  assert (Hz : ~ exists s, Prim2SF x = S754_zero s).
  { intros H. apply is_zero_spec in H. congruence. }
  rewrite FloatAxioms.ltb_spec, Prim2SF_zero in Hlt. unfold SFltb, SFcompare in Hlt.
  destruct (Prim2SF x) as [s|s| |s m e]; try destruct s; simpl in *;
    try reflexivity; try discriminate; try congruence.
  exfalso. apply Hz. eauto.
Qed.

Lemma stored_positive x : (0 <? stored x)%float = (0 <? x)%float.
Proof.
  unfold stored. destruct (is_zero x) eqn:E; [|reflexivity].
  apply is_zero_spec in E as [s E].
  rewrite !FloatAxioms.ltb_spec, Prim2SF_zero, E. reflexivity.
Qed.

Lemma bind_real_Some x : is_nan x = false -> bind_real x = Some (stored x).
Proof. intros H. unfold bind_real. now rewrite H. Qed.

Lemma bind_real_None x : is_nan x = true -> bind_real x = None.
Proof. intros H. unfold bind_real. now rewrite H. Qed.

(** Rounding keeps the sign. *)
Lemma binary_round_aux_sign mx ex lx :
  binary_round_aux prec emax false mx ex lx = S754_nan \/
  not_negative (binary_round_aux prec emax false mx ex lx).
Proof.
  unfold binary_round_aux.
  destruct (shr_fexp prec emax mx ex lx) as [mrs' e'].
  destruct (shr_fexp prec emax _ e' loc_Exact) as [mrs'' e''].
  destruct (shr_m mrs''); simpl; auto.
  destruct (Z.leb e'' (emax - prec)); simpl; auto.
Qed.

Lemma binary_round_sign m e :
  binary_round prec emax false m e = S754_nan \/
  not_negative (binary_round prec emax false m e).
Proof.
  unfold binary_round. destruct (shl_align m e _) as [mz ez].
  apply binary_round_aux_sign.
Qed.

Lemma binary_normalize_sign m e :
  0 <= m ->
  binary_normalize prec emax m e false = S754_nan \/
  not_negative (binary_normalize prec emax m e false).
Proof.
  intros Hm. destruct m as [|p|p]; simpl; [now right| |lia].
  apply binary_round_sign.
Qed.

Lemma SFadd_sign x y :
  not_negative x -> above_zero y \/ y = S754_nan ->
  SF64add x y = S754_nan \/ not_negative (SF64add x y).
Proof.
  intros Hx Hy. unfold SF64add, SFadd.
  destruct x as [sx|sx| |sx mx ex], y as [sy|sy| |sy my ey]; simpl in *;
    try destruct sx; try destruct sy; simpl; try (intuition congruence).
  apply binary_round_sign.
Qed.

(** *** Aligned mantissas *)

Lemma iter_xO_value m d : Zpos (Pos.iter xO m d) = Zpos m * 2 ^ Zpos d.
Proof.
  induction d as [|d IH] using Pos.peano_ind.
  - simpl. lia.
  - rewrite Pos.iter_succ, Pos2Z.inj_xO, IH, Pos2Z.inj_succ, Z.pow_succ_r by lia. lia.
Qed.

Lemma shl_align_value m e e' :
  e' <= e -> Zpos (fst (shl_align m e e')) = Zpos m * 2 ^ (e - e').
Proof.
  intros Hle. unfold shl_align. destruct (e' - e) as [|d|d] eqn:E.
  - replace (e - e') with 0 by lia. simpl. lia.
  - lia.
  - cbn [fst]. rewrite iter_xO_value. f_equal. f_equal. lia.
Qed.

Lemma digits2_pos_bounds m :
  2 ^ (Zpos (digits2_pos m) - 1) <= Zpos m < 2 ^ Zpos (digits2_pos m).
Proof.
  induction m as [m IH|m IH|]; cbn [digits2_pos].
  - rewrite Pos2Z.inj_succ, Pos2Z.inj_xI.
    replace (Z.succ (Zpos (digits2_pos m)) - 1) with (Z.succ (Zpos (digits2_pos m) - 1))
      by lia.
    rewrite !Z.pow_succ_r by lia.
    set (p := 2 ^ (Zpos (digits2_pos m) - 1)) in *.
    set (q := 2 ^ Zpos (digits2_pos m)) in *. clearbody p q. lia.
  - rewrite Pos2Z.inj_succ. change (Zpos m~0) with (2 * Zpos m).
    replace (Z.succ (Zpos (digits2_pos m)) - 1) with (Z.succ (Zpos (digits2_pos m) - 1))
      by lia.
    rewrite !Z.pow_succ_r by lia.
    set (p := 2 ^ (Zpos (digits2_pos m) - 1)) in *.
    set (q := 2 ^ Zpos (digits2_pos m)) in *. clearbody p q. lia.
  - simpl. lia.
Qed.

(** What validity says of a finite binary64 number: the exponent is at
    least -1074, the mantissa has at most 53 bits, and exactly 53 above
    the smallest exponent. *)
Lemma bounded_spec m e :
  bounded prec emax m e = true ->
  -1074 <= e /\ Zpos (digits2_pos m) <= 53 /\ (-1074 < e -> Zpos (digits2_pos m) = 53).
Proof.
  unfold bounded, canonical_mantissa, fexp, SpecFloat.emin, prec, emax.
  intros H. apply andb_true_iff in H as [H _]. apply Z.eqb_eq in H.
  lia.
Qed.

(** A finite positive number that is not below another has the larger
    aligned mantissa. *)
Lemma aligned_mantissas mx ex my ey :
  bounded prec emax mx ex = true -> bounded prec emax my ey = true ->
  SFltb (S754_finite false mx ex) (S754_finite false my ey) = false ->
  Zpos (fst (shl_align my ey (Z.min ex ey))) <= Zpos (fst (shl_align mx ex (Z.min ex ey))).
Proof.
  intros Hx Hy Hlt. unfold SFltb, SFcompare in Hlt.
  rewrite !shl_align_value by lia.
  destruct (Z.compare_spec ex ey) as [Heq|Hl|Hg]; [|discriminate|].
  - subst ey. rewrite Z.min_id, Z.sub_diag. simpl.
    destruct (Pos.compare_cont Eq mx my) eqn:C; try discriminate.
    + apply Pos.compare_eq in C. subst. lia.
    + change (Pos.compare mx my = Gt) in C. apply Pos.compare_gt_iff in C. lia.
  - rewrite Z.min_r by lia. rewrite Z.sub_diag. change (2 ^ 0) with 1.
    apply bounded_spec in Hx as (Hex & _ & Hdx). apply bounded_spec in Hy as (Hey & Hdy & _).
    specialize (Hdx ltac:(lia)).
    pose proof (digits2_pos_bounds mx) as Bx. pose proof (digits2_pos_bounds my) as By.
    rewrite Hdx in Bx.
    assert (Hmy : Zpos my < 2 ^ 53).
    { eapply Z.lt_le_trans; [apply By|]. apply Z.pow_le_mono_r; lia. }
    assert (Hp : 2 <= 2 ^ (ex - ey)).
    { change 2 with (2 ^ 1) at 1. apply Z.pow_le_mono_r; lia. }
    change (53 - 1) with 52 in Bx.
    assert (H52 : 2 ^ 53 = 2 * 2 ^ 52) by reflexivity.
    nia.
Qed.

Lemma SFsub_sign x y :
  valid_binary x = true -> valid_binary y = true ->
  not_negative x -> above_zero y \/ y = S754_nan ->
  SFltb x y = false ->
  SF64sub x y = S754_nan \/ not_negative (SF64sub x y).
Proof.
  intros Vx Vy Hx Hy Hlt. unfold SF64sub, SFsub.
  destruct x as [sx|sx| |sx mx ex], y as [sy|sy| |sy my ey]; simpl in *;
    try destruct sx; try destruct sy; simpl; try (intuition congruence).
  pose proof (aligned_mantissas mx ex my ey Vx Vy Hlt) as Hal.
  apply binary_normalize_sign. unfold cond_Zopp. lia.
Qed.

(** *** The two operations of the engine *)

(** A balance that is not negative, plus an amount that passed the guard
    [amount <= 0], is not negative, unless it is NaN. *)
Lemma add_not_negative b amount :
  not_negative (Prim2SF b) -> (amount <=? 0)%float = false ->
  is_nan (b + amount) = false ->
  not_negative (Prim2SF (b + amount)).
Proof.
  intros Hb Hamt Hnan. apply leb_zero_false in Hamt. apply is_nan_false in Hnan.
  rewrite add_spec in *. destruct (SFadd_sign _ _ Hb Hamt); [contradiction|assumption].
Qed.

(** A balance that is not below the amount leaves a difference that is
    not negative, unless it is NaN. *)
Lemma sub_not_negative b amount :
  not_negative (Prim2SF b) -> (amount <=? 0)%float = false ->
  (b <? amount)%float = false ->
  is_nan (b - amount) = false ->
  not_negative (Prim2SF (b - amount)).
Proof.
  intros Hb Hamt Hlt Hnan. apply leb_zero_false in Hamt. apply is_nan_false in Hnan.
  rewrite FloatAxioms.ltb_spec in Hlt. rewrite sub_spec in *.
  destruct (SFsub_sign _ _ (Prim2SF_valid b) (Prim2SF_valid amount) Hb Hamt Hlt);
    [contradiction|assumption].
Qed.

(** NaN is contagious: a sum or difference that is not NaN has no NaN
    operand. *)
Lemma add_nan_r b amount : is_nan (b + amount) = false -> is_nan amount = false.
Proof.
  rewrite !is_nan_false, add_spec. intros H E. apply H. rewrite E.
  unfold SF64add, SFadd. now destruct (Prim2SF b).
Qed.

Lemma sub_nan_r b amount : is_nan (b - amount) = false -> is_nan amount = false.
Proof.
  rewrite !is_nan_false, sub_spec. intros H E. apply H. rewrite E.
  unfold SF64sub, SFsub. now destruct (Prim2SF b).
Qed.

Lemma add_zero_l x : above_zero (Prim2SF x) -> (0 + x)%float = x.
Proof.
  intros H. apply Prim2SF_inj. rewrite add_spec, Prim2SF_zero.
  unfold SF64add, SFadd. destruct (Prim2SF x) as [s|s| |s m e]; simpl in *; tauto.
Qed.




Lemma not_above_zero x :
  not_negative (Prim2SF x) -> (0 <? x)%float = false -> x = 0%float.
Proof.
  intros Hnn Hlt. apply Prim2SF_inj. rewrite Prim2SF_zero.
  rewrite FloatAxioms.ltb_spec, Prim2SF_zero in Hlt. unfold SFltb, SFcompare in Hlt.
  destruct (Prim2SF x) as [s|s| |s m e]; simpl in *; subst;
    try reflexivity; try discriminate; contradiction.
Qed.


Lemma not_negative_not_nan x : not_negative (Prim2SF x) -> is_nan x = false.
Proof. intros H. apply is_nan_false. intros E. now rewrite E in H. Qed.

Lemma bind_real_not_negative x : not_negative (Prim2SF x) -> bind_real x = Some x.
Proof.
  intros H. rewrite bind_real_Some by now apply not_negative_not_nan.
  now rewrite stored_not_negative.
Qed.

(** ** The store *)

Lemma found_account db number a :
  select_account db number = Some a ->
  In a (accounts db) /\ a_account_number a = number.
Proof.
  unfold select_account. intros H. apply find_some in H.
  destruct H as [Hin Hb]. split; [exact Hin|].
  now apply bool_decide_eq_true in Hb.
Qed.

Lemma absent_account db number a :
  select_account db number = None -> In a (accounts db) ->
  a_account_number a <> number.
Proof.
  unfold select_account. intros H Hin.
  pose proof (find_none _ _ H a Hin) as Hb. simpl in Hb.
  now apply bool_decide_eq_false in Hb.
Qed.

Lemma replay_snoc h t : replay (h ++ [t]) = apply (replay h) t.
Proof. unfold replay. now rewrite fold_left_app. Qed.

Lemma history_fresh db a :
  (forall t, In t (transactions db) -> t_account_id t <= seq_accounts db) ->
  seq_accounts db < a_id a -> history db a = [].
Proof.
  intros Hown Hid. unfold history.
  induction (transactions db) as [|t l IH]; simpl; [reflexivity|].
  rewrite bool_decide_eq_false_2.
  - apply IH. intros u Hu. apply Hown. now right.
  - specialize (Hown t (or_introl eq_refl)). lia.
Qed.

Lemma moved_In db id number ty amount b description now a' :
  In a' (accounts (moved db id number ty amount b description now)) ->
  exists a, In a (accounts db) /\
    ((a_account_number a = number /\ a' = set_balance b a) \/
     (a_account_number a <> number /\ a' = a)).
Proof.
  simpl. rewrite List.in_map_iff. intros [a [Ha Hin]]. exists a. split; [exact Hin|].
  destruct (bool_decide (a_account_number a = number)) eqn:E.
  - apply bool_decide_eq_true in E. left. now split.
  - apply bool_decide_eq_false in E. right. now split.
Qed.


(** The two writes of a deposit or withdrawal keep the store consistent
    when the new balance is the old one moved by the amount and is not
    negative. *)
Lemma moved_consistent db number account ty amount new_balance description now :
  consistent db ->
  select_account db number = Some account ->
  (ty = "deposit" /\ new_balance = (a_balance account + amount)%float \/
   ty = "withdrawal" /\ new_balance = (a_balance account - amount)%float) ->
  not_negative (Prim2SF new_balance) ->
  consistent (moved db (a_id account) number ty amount new_balance description now).
Proof.
  intros C Hsel Hty Hnn.
  apply found_account in Hsel as Hacc. destruct Hacc as [Hin Hnum].
  set (db' := moved db (a_id account) number ty amount new_balance description now).
  assert (Hcase : forall a', In a' (accounts db') ->
            (a_id a' = a_id account /\ a_balance a' = new_balance) \/
            (a_id a' <> a_id account /\ In a' (accounts db))).
  { intros a' Ha'. apply moved_In in Ha' as [a [Ha [[Hn ->]|[Hn ->]]]].
    - left. assert (a = account) as ->; [|now split].
      apply (map_key_inj a_account_number (accounts db)); auto using numbers_unique.
      congruence.
    - right. split; [|exact Ha]. intros Hid. apply Hn. rewrite <- Hnum. f_equal.
      apply (map_key_inj a_id (accounts db)); auto using ids_unique. }
  assert (Hhist : forall a',
            history db' a' =
            history db a' ++
              (if bool_decide (a_id account = a_id a')
               then [mkTransaction (seq_transactions db + 1) (a_id account) ty amount
                                   new_balance description now]
               else [])).
  { intros a'. unfold db', moved, history. simpl. now rewrite List.filter_app. }
  assert (Hnumbers : List.map a_account_number (accounts db') =
                     List.map a_account_number (accounts db)).
  { unfold db'. simpl. rewrite List.map_map. apply List.map_ext. intros a.
    now destruct (bool_decide (a_account_number a = number)). }
  assert (Hids : List.map a_id (accounts db') = List.map a_id (accounts db)).
  { unfold db'. simpl. rewrite List.map_map. apply List.map_ext. intros a.
    now destruct (bool_decide (a_account_number a = number)). }
  constructor.
  - rewrite Hnumbers. apply (numbers_unique _ C).
  - rewrite Hids. apply (ids_unique _ C).
  - intros a' Ha'. change (seq_accounts db') with (seq_accounts db).
    apply Hcase in Ha' as [[Hid _]|[_ Ha']].
    + rewrite Hid. now apply (ids_bounded _ C).
    + now apply (ids_bounded _ C).
  - intros t Ht. change (seq_accounts db') with (seq_accounts db).
    change (In t (transactions db ++
       [mkTransaction (seq_transactions db + 1) (a_id account) ty amount new_balance
          description now])) in Ht.
    apply List.in_app_iff in Ht as [Ht|[<-|[]]].
    + now apply (owners_bounded _ C).
    + simpl. now apply (ids_bounded _ C).
  - intros a' Ha'. rewrite Hhist. apply Hcase in Ha' as [[Hid Hb]|[Hid Ha']].
    + rewrite bool_decide_eq_true_2 by congruence. rewrite replay_snoc.
      assert (Hh : history db a' = history db account) by (unfold history; now rewrite Hid).
      rewrite Hh, Hb, <- (replayed _ C account Hin). unfold apply. simpl.
      destruct Hty as [[-> ->]|[-> ->]].
      * now rewrite bool_decide_eq_false_2 by discriminate.
      * now rewrite bool_decide_eq_true_2 by reflexivity.
    + rewrite bool_decide_eq_false_2 by congruence. rewrite app_nil_r.
      now apply (replayed _ C).
  - intros a' Ha'. apply Hcase in Ha' as [[Hid Hb]|[Hid Ha']].
    + now rewrite Hb.
    + now apply (non_negative _ C).
Qed.

(** The rows of a creation keep the store consistent when the number is
    free and the balance is not negative. *)
Lemma created_consistent db number first last ty cur b now :
  consistent db -> select_account db number = None -> not_negative (Prim2SF b) ->
  consistent (created db number first last ty cur b now).
Proof.
  intros C Hfree Hb.
  set (new := mkAccount (seq_accounts db + 1) number (Str.strip first)
                        (Str.strip last) ty cur b now).
  set (db' := created db number first last ty cur b now).
  assert (Hacc : accounts db' = accounts db ++ [new]).
  { unfold db', created. now destruct (0 <? b)%float. }
  assert (Hseq : seq_accounts db' = seq_accounts db + 1).
  { unfold db', created. now destruct (0 <? b)%float. }
  assert (Htx : transactions db' =
                transactions db ++
                  (if (0 <? b)%float
                   then [mkTransaction (seq_transactions db + 1) (seq_accounts db + 1)
                           "deposit" b b "Initial deposit" now]
                   else [])).
  { unfold db', created. destruct (0 <? b)%float; simpl; [reflexivity|].
    now rewrite app_nil_r. }
  assert (Hold : forall a, In a (accounts db) -> history db' a = history db a).
  { intros a Ha. unfold history. rewrite Htx, List.filter_app.
    destruct (0 <? b)%float; simpl; [|apply app_nil_r].
    rewrite bool_decide_eq_false_2; [apply app_nil_r|].
    pose proof (ids_bounded _ C a Ha). lia. }
  assert (Hnew : history db' new =
                 if (0 <? b)%float
                 then [mkTransaction (seq_transactions db + 1) (seq_accounts db + 1)
                         "deposit" b b "Initial deposit" now]
                 else []).
  { pose proof (history_fresh db new (owners_bounded _ C)) as Hfresh.
    unfold history in *. rewrite Htx, List.filter_app, Hfresh by (simpl; lia).
    destruct (0 <? b)%float; simpl; [|reflexivity].
    now rewrite bool_decide_eq_true_2. }
  assert (Hsplit : forall a, In a (accounts db ++ [new]) -> In a (accounts db) \/ a = new).
  { intros a Ha. apply List.in_app_iff in Ha as [Ha|[<-|[]]]; auto. }
  constructor; rewrite ?Hacc, ?Hseq.
  - rewrite List.map_app. simpl. apply NoDup_app_snoc.
    + apply (numbers_unique _ C).
    + intros Hin. apply List.in_map_iff in Hin as [a [Ha Hin]].
      now apply (absent_account db number a Hfree).
  - rewrite List.map_app. simpl. apply NoDup_app_snoc.
    + apply (ids_unique _ C).
    + intros Hin. apply List.in_map_iff in Hin as [a [Ha Hin]].
      pose proof (ids_bounded _ C a Hin). lia.
  - intros a Ha. apply Hsplit in Ha as [Ha| ->].
    + pose proof (ids_bounded _ C a Ha). lia.
    + simpl. lia.
  - intros t Ht. rewrite Htx in Ht. apply List.in_app_iff in Ht as [Ht|Ht].
    + pose proof (owners_bounded _ C t Ht). lia.
    + destruct (0 <? b)%float; [|destruct Ht]. destruct Ht as [<-|[]]. simpl. lia.
  - intros a Ha. apply Hsplit in Ha as [Ha| ->].
    + rewrite Hold by assumption. now apply (replayed _ C).
    + rewrite Hnew. destruct (0 <? b)%float eqn:E.
      * unfold replay, apply. simpl. symmetry. apply add_zero_l.
        now apply ltb_zero_spec.
      * simpl. now apply not_above_zero.
  - intros a Ha. apply Hsplit in Ha as [Ha| ->].
    + now apply (non_negative _ C).
    + exact Hb.
Qed.

(** ** What the calls write *)

Lemma generate_account_number_free db draws number :
  generate_account_number db draws = Return number -> select_account db number = None.
Proof.
  induction draws as [|d rest IH]; simpl; [discriminate|].
  destruct (select_account db (Str.of_int d)) eqn:E; [exact IH|].
  now intros [= <-].
Qed.

(** A call of [create_account] leaves the store as it was or writes the
    rows of a creation, with the balance the column keeps. *)
Lemma create_account_writes first last ty cur init draws now db :
  snd (create_account first last ty cur init draws now db) = db \/
  exists number,
    select_account db number = None /\ not_negative (Prim2SF (stored init)) /\
    snd (create_account first last ty cur init draws now db) =
    created db number first last ty cur (stored init) now.
Proof.
  unfold create_account.
  destruct (negb (Str.truthy first) || negb (Str.truthy (Str.strip first)));
    [now left|].
  destruct (negb (Str.truthy last) || negb (Str.truthy (Str.strip last)));
    [now left|].
  destruct (negb (bool_decide (ty ∈ ["checking"; "savings"]))); [now left|].
  destruct (negb (is_valid_currency cur)); [now left|].
  destruct (init <? 0)%float eqn:Hneg; [now left|].
  destruct (generate_account_number db draws) as [number|e|] eqn:G;
    [|now left|now left].
  apply generate_account_number_free in G.
  unfold insert_account. destruct (is_nan init) eqn:Hnan.
  { rewrite bind_real_None by exact Hnan. now left. }
  rewrite bind_real_Some by exact Hnan. rewrite G.
  right. exists number. split; [exact G|]. split; [now apply stored_checked|].
  unfold created. rewrite stored_positive.
  destruct (0 <? init)%float; [|reflexivity].
  unfold insert_transaction. rewrite bind_real_Some by exact Hnan. reflexivity.
Qed.

(** The two statements of a movement go through when the amount is above
    zero and the new balance is not negative. *)
Lemma record_movement_written db account number ty amount new_balance description now :
  above_zero (Prim2SF amount) -> not_negative (Prim2SF new_balance) ->
  record_movement db account number ty amount new_balance description now =
  (Return (movement_dict number ty amount new_balance),
   moved db (a_id account) number ty amount new_balance description now).
Proof.
  intros Hamt Hnb. unfold record_movement, update_balance, insert_transaction.
  rewrite (bind_real_not_negative new_balance Hnb). cbn [seq_transactions accounts
    transactions seq_accounts].
  rewrite (bind_real_not_negative amount (above_zero_not_negative _ Hamt)).
  reflexivity.
Qed.

(** They fail, and write nothing, when the new balance is NaN. *)
Lemma record_movement_nan db account number ty amount new_balance description now :
  select_account db number = Some account -> is_nan new_balance = true ->
  record_movement db account number ty amount new_balance description now =
  (Raise (IntegrityError "NOT NULL constraint failed: accounts.balance"), db).
Proof.
  intros Hsel Hnan. unfold record_movement, update_balance.
  now rewrite bind_real_None, Hsel by exact Hnan.
Qed.


Lemma deposit_writes db number amount description now :
  consistent db ->
  snd (deposit number amount description now db) = db \/
  exists account new_balance,
    select_account db number = Some account /\
    new_balance = (a_balance account + amount)%float /\
    not_negative (Prim2SF new_balance) /\
    snd (deposit number amount description now db) =
    moved db (a_id account) number "deposit" amount new_balance
          (or_default description "Deposit") now.
Proof.
  intros C. unfold deposit. destruct (amount <=? 0)%float eqn:E; [now left|].
  destruct (select_account db number) as [account|] eqn:S; [|now left].
  destruct (is_nan (a_balance account + amount)) eqn:N.
  { left. now rewrite (record_movement_nan _ _ _ _ _ _ _ _ S N). }
  right. exists account, (a_balance account + amount)%float.
  pose proof (found_account db number account S) as [Hin _].
  assert (Hnn : not_negative (Prim2SF (a_balance account + amount))).
  { apply add_not_negative; auto. now apply (non_negative _ C). }
  assert (Hamt : above_zero (Prim2SF amount)).
  { apply leb_zero_false in E as [H|H]; [exact H|].
    apply add_nan_r in N. apply is_nan_false in N. contradiction. }
  repeat split; auto. now rewrite record_movement_written.
Qed.

Lemma withdraw_writes db number amount description now :
  consistent db ->
  snd (withdraw number amount description now db) = db \/
  exists account new_balance,
    select_account db number = Some account /\
    new_balance = (a_balance account - amount)%float /\
    not_negative (Prim2SF new_balance) /\
    snd (withdraw number amount description now db) =
    moved db (a_id account) number "withdrawal" amount new_balance
          (or_default description "Withdrawal") now.
Proof.
  intros C. unfold withdraw. destruct (amount <=? 0)%float eqn:E; [now left|].
  destruct (select_account db number) as [account|] eqn:S; [|now left].
  destruct (a_balance account <? amount)%float eqn:F; [now left|].
  destruct (is_nan (a_balance account - amount)) eqn:N.
  { left. now rewrite (record_movement_nan _ _ _ _ _ _ _ _ S N). }
  right. exists account, (a_balance account - amount)%float.
  pose proof (found_account db number account S) as [Hin _].
  assert (Hnn : not_negative (Prim2SF (a_balance account - amount))).
  { apply sub_not_negative; auto. now apply (non_negative _ C). }
  assert (Hamt : above_zero (Prim2SF amount)).
  { apply leb_zero_false in E as [H|H]; [exact H|].
    apply sub_nan_r in N. apply is_nan_false in N. contradiction. }
  repeat split; auto. now rewrite record_movement_written.
Qed.

(** ** The invariant holds after every history of calls *)

Lemma empty_db_consistent64 : consistent empty_db.
Proof. constructor; simpl; try constructor; intros ? []. Qed.

Lemma exec_consistent64 db c : consistent db -> consistent (exec db c).
Proof.
  intros C. unfold exec. destruct c as [f l ty cur init draws now|n amt d now|n amt d now];
    simpl.
  - destruct (create_account_writes f l ty cur init draws now db)
      as [->|[number (Hfree & Hnn & ->)]]; [exact C|].
    now apply created_consistent.
  - destruct (deposit_writes db n amt d now C)
      as [->|(account & nb & Hsel & Hnb & Hnn & ->)]; [exact C|].
    apply moved_consistent; auto.
  - destruct (withdraw_writes db n amt d now C)
      as [->|(account & nb & Hsel & Hnb & Hnn & ->)]; [exact C|].
    apply moved_consistent; auto.
Qed.

Lemma exec_all_consistent64 cs db : consistent db -> consistent (exec_all cs db).
Proof.
  revert db. induction cs as [|c cs IH]; simpl; intros db C; [exact C|].
  apply IH. now apply exec_consistent64.
Qed.

(** ** The ledger engine *)



(** C2, as the code has it.  After any history of [create_account],
    [deposit] and [withdraw] calls from the empty store, the stored
    balance of every account is its history replayed in order from zero:
    each deposit added and each withdrawal subtracted in binary64, with
    the rounding of every step. *)
Theorem balance_is_replayed_history (cs : list call) (a : account_row) :
  In a (accounts (exec_all cs empty_db)) ->
  a_balance a = replay (history (exec_all cs empty_db) a).
Proof.
  apply replayed, exec_all_consistent64, empty_db_consistent64.
Qed.

Lemma balance_is_replayed_history_witness :
  a_balance rounding_account = replay (history rounding_db rounding_account).
Proof.
  apply (balance_is_replayed_history rounding_calls rounding_account).
  vm_compute. left. reflexivity.
Defined.

(** C2, as the specification has it, fails.  After 0.3 is paid in, 0.1
    taken out and 0.7 paid in, the stored balance is 0.8999999999999999,
    the sum of the deposits minus the sum of the withdrawals is 0.9 when
    summed as floats, and the two differ as exact quantities as well. *)
Lemma conservation_is_rounded :
  In rounding_account (accounts rounding_db) /\
  a_balance rounding_account = 0x1.cccccccccccccp-1%float /\
  (total "deposit" (history rounding_db rounding_account) -
   total "withdrawal" (history rounding_db rounding_account))%float = tenths 9 /\
  (a_balance rounding_account =?
   total "deposit" (history rounding_db rounding_account) -
   total "withdrawal" (history rounding_db rounding_account))%float = false /\
  exact (a_balance rounding_account) <>
  exact_total "deposit" (history rounding_db rounding_account) -
  exact_total "withdrawal" (history rounding_db rounding_account).
Proof.
  split; [vm_compute; left; reflexivity|].
  split; [reflexivity|].
  split; [vm_compute; reflexivity|].
  split; [vm_compute; reflexivity|].
  vm_compute. discriminate.
Qed.

(** ** A deposit taken out again *)

(** X4.  Depositing an amount and withdrawing it again does not always
    restore the balance.  On an account that holds 0.1, a deposit of 0.2
    followed by a withdrawal of 0.2 returns both times, and the balance
    it leaves is (0.1 + 0.2) - 0.2 as binary64 computes it, which is
    0.10000000000000003 and not 0.1. *)
Theorem deposit_then_withdraw_rounds :
  let before := exec_all (firstn 1 round_trip_calls) empty_db in
  let between := exec_all (firstn 2 round_trip_calls) empty_db in
  let after := exec_all round_trip_calls empty_db in
  List.map a_balance (accounts before) = [tenths 1] /\
  fst (deposit "123456" (tenths 2) "" 1001 before) =
    Return (movement_dict "123456" "deposit" (tenths 2) (tenths 1 + tenths 2)%float) /\
  fst (withdraw "123456" (tenths 2) "" 1002 between) =
    Return (movement_dict "123456" "withdrawal" (tenths 2)
                          (tenths 1 + tenths 2 - tenths 2)%float) /\
  List.map a_balance (accounts after) = [0x1.999999999999cp-4%float] /\
  (0x1.999999999999cp-4 =? tenths 1)%float = false /\
  (tenths 1 <? 0x1.999999999999cp-4)%float = true.
Proof. vm_compute. repeat split; reflexivity. Qed.

End Ledger64.

(** ** Rendering a float *)

Lemma hundredths_not_negative x : 0 <= F64.hundredths x.
Proof.
  unfold F64.hundredths. destruct (Prim2SF x) as [s|s| |s m e]; try lia.
  destruct (0 <=? e) eqn:E.
  - apply Z.leb_le in E. apply Z.mul_nonneg_nonneg; [lia|]. now apply Z.pow_nonneg.
  - apply Z.leb_gt in E.
    assert (Hd : 0 < 2 ^ (- e)) by (apply Z.pow_pos_nonneg; lia).
    assert (Hq : 0 <= Z.pos m * 100 / 2 ^ (- e)) by (apply Z.div_pos; lia).
    cbv zeta.
    destruct (2 * (Z.pos m * 100 mod 2 ^ (- e)) ?= 2 ^ (- e)); try lia.
    destruct (Z.even _); lia.
Qed.

(** On a finite float that is not negative, [",.2f"] prints the float's
    hundredths, rounded to the nearest with ties to even, as an exact
    amount is printed. *)
Lemma fixed2_hundredths x :
  F64.not_negative (Prim2SF x) -> is_infinity x = false ->
  F64.fixed2 x = Fmt.fixed2 (F64.hundredths x).
Proof.
  intros Hnn Hinf. pose proof (hundredths_not_negative x) as Hh.
  unfold Fmt.fixed2, Fmt.fixed2_chars, Fmt.sign.
  destruct (F64.hundredths x <? 0) eqn:E; [lia|]. rewrite Z.abs_eq by exact Hh.
  unfold is_infinity in Hinf. rewrite FloatAxioms.eqb_spec, abs_spec in Hinf.
  change (Prim2SF infinity) with (S754_infinity false) in Hinf.
  unfold F64.fixed2.
  destruct (Prim2SF x) as [s|s| |s m e] eqn:P; simpl in Hnn; subst;
    try reflexivity; try contradiction; discriminate.
Qed.

(** X21.  A rendered amount does not give the amount back: [",.2f"]
    rounds to hundredths.  On every finite float that is not negative the
    rendering is that of the float's hundredths, rounded to the nearest
    with ties to even, as an exact amount is rendered; so 0.1 + 0.2 and
    0.3, two different floats, are rendered alike in every currency. *)
Theorem format_amount_rounds :
  (forall c x, F64.not_negative (Prim2SF x) -> is_infinity x = false ->
     F64.format_amount c x = format_amount c (F64.hundredths x)) /\
  (F64.tenths 1 + F64.tenths 2 =? F64.tenths 3)%float = false /\
  (forall c, F64.format_amount c (F64.tenths 1 + F64.tenths 2) =
             F64.format_amount c (F64.tenths 3)) /\
  F64.format_amount (mkCurrency "USD" "US Dollars" "$") (F64.tenths 1 + F64.tenths 2) =
    "$0.30".
Proof.
  split; [|split; [|split]].
  - intros c x Hnn Hinf. unfold F64.format_amount, format_amount.
    now rewrite fixed2_hundredths.
  - reflexivity.
  - intros c. unfold F64.format_amount.
    assert (E : F64.fixed2 (F64.tenths 1 + F64.tenths 2) = F64.fixed2 (F64.tenths 3))
      by (vm_compute; reflexivity).
    now rewrite E.
  - vm_compute. reflexivity.
Qed.
